(** * smallsh: a shallow embedding of [smallsh.c] and its job-control properties

    The development follows the C file top-down:

    - [CString]: the handful of <string.h> routines the shell relies on
      ([strstr], [strtok]), on NUL-free strings;
    - the two structs ([struct_command], [struct_processes]) and the global
      [foreground];
    - a small state monad carrying the shell's memory and the trace of its
      system calls, with the operating system's answers supplied by an
      [os_model];
    - the functions of the file, in source order: [handle_SIGTSTP],
      [exitShell], [cdShell], [statusShell], [otherCommands], [parseInput],
      [shell], [main];
    - the properties.

    Modelling conventions.  A [char*] is a [string] (its contents up to the
    terminating NUL) and a possibly-NULL [char*] an [option string].  The
    capacity of the 2049-byte line buffers and of [pidString] is not
    modelled, except that the expansion loop cannot run for more than [len]
    rounds without overrunning [inputPID].  The argument vector has its 512
    slots, and the [backgroundPids] array is kept as an array with its own
    counter, as in the structs; a store outside either array is a fault
    that ends the run, the C program having no defined behaviour from there
    on.  Memory obtained for a [struct command] is taken to be
    zero-filled (absent redirects read as NULL); the memory obtained for the
    [struct processes] is arbitrary, as is every uninitialised local. *)

From Stdlib Require Import ZArith String Ascii List Bool DecimalString Lia.
From stdpp Require Import base list strings.

Local Open Scope Z_scope.

(* ===================================================================== *)
(** * The C string routines                                               *)
(* ===================================================================== *)

Module CString.

(** The newline character and the one-character string ["\n"]. *)
Definition newline : ascii := "010"%char.
Definition nl : string := String newline EmptyString.

(** [c] occurs in the delimiter set [set]. *)
Fixpoint member (c : ascii) (set : string) : bool :=
  match set with
  | EmptyString => false
  | String d set' => Ascii.eqb c d || member c set'
  end.

(** [strspn]: the leading run of characters of [s] drawn from [accept],
    and what follows it. *)
Fixpoint span_in (accept s : string) : string * string :=
  match s with
  | EmptyString => (EmptyString, EmptyString)
  | String c s' =>
      if member c accept
      then let (run, rest) := span_in accept s' in (String c run, rest)
      else (EmptyString, s)
  end.

(** [strcspn]: the leading run of characters of [s] not in [reject], and
    what follows it (starting at the rejecting character, if any). *)
Fixpoint span_out (reject s : string) : string * string :=
  match s with
  | EmptyString => (EmptyString, EmptyString)
  | String c s' =>
      if member c reject
      then (EmptyString, s)
      else let (run, rest) := span_out reject s' in (String c run, rest)
  end.

(** [s] begins with [needle]. *)
Fixpoint starts_with (s needle : string) {struct needle} : bool :=
  match needle with
  | EmptyString => true
  | String n needle' =>
      match s with
      | EmptyString => false
      | String c s' => Ascii.eqb c n && starts_with s' needle'
      end
  end.

(** [strstr haystack needle]: the suffix of [haystack] that starts at the
    first occurrence of [needle]; [None] is NULL. *)
Fixpoint strstr (haystack needle : string) : option string :=
  if starts_with haystack needle then Some haystack
  else match haystack with
       | EmptyString => None
       | String _ h' => strstr h' needle
       end.

(** The effect of [strtok(str, delim)] with [str] non-NULL.  [tok] is the
    returned token (NULL when [str] holds delimiters only); [reads] is what
    the buffer [str] reads as afterwards, a NUL having replaced the
    delimiter that ended the token; [saved] is the text after that NUL,
    from which [strtok(NULL, delim)] goes on. *)
Record strtok_result := StrtokResult
  { tok : option string; reads : string; saved : string }.

Definition strtok (str delim : string) : strtok_result :=
  let (lead, body) := span_in delim str in
  match body with
  | EmptyString => {| tok := None; reads := str; saved := EmptyString |}
  | String _ _ =>
      let (t, after) := span_out delim body in
      {| tok := Some t;
         reads := lead +:+ t;
         saved := match after with
                  | EmptyString => EmptyString
                  | String _ r => r
                  end |}
  end.

(** The successive results of [strtok(s, delim)], [strtok(NULL, delim)],
    ... up to the first NULL.  [cur] is the token being read. *)
Fixpoint tokens_from (delim s : string) (cur : option string) : list string :=
  match s with
  | EmptyString => match cur with Some t => [t] | None => [] end
  | String c s' =>
      if member c delim
      then match cur with
           | Some t => t :: tokens_from delim s' None
           | None => tokens_from delim s' None
           end
      else tokens_from delim s'
             (Some (match cur with
                    | Some t => t +:+ String c EmptyString
                    | None => String c EmptyString
                    end))
  end.

Definition tokens (s delim : string) : list string := tokens_from delim s None.

(** [strncmp(s, t, 1) == 0]: the first characters agree (a missing
    character is the NUL). *)
Definition first_char_eq (s t : string) : bool :=
  match s, t with
  | EmptyString, EmptyString => true
  | String a _, String b _ => Ascii.eqb a b
  | _, _ => false
  end.

End CString.

Import CString.

(* ===================================================================== *)
(** * Outcomes that end the run of a function early                       *)
(* ===================================================================== *)

(** Undefined behaviour the shell can actually hit. *)
Inductive fault : Type :=
| NullDeref       (* a NULL [char*] handed to strcpy, strcat or strlen *)
| BufferOverrun   (* a write past the end of a calloc'ed line buffer *)
| OutOfBounds.    (* an index outside [backgroundPids] *)

(* ===================================================================== *)
(** * The expansion of [$$] (parseInput, lines 442-479)                    *)
(* ===================================================================== *)

(** [int len = 2049]: the size of every line buffer. *)
Definition len : nat := 2049.

Definition dollars : string := "$$".

(** [sprintf(pidString, "%d", pid)]. *)
Definition pidString (pid : Z) : string := NilZero.string_of_int (Z.to_int pid).

(** The [while (strstr(inputCopy, dollars) != NULL)] loop.  Each round
    appends the non-empty [pidStr] to [inputPID], so [rounds] = [len] rounds
    cannot complete inside the buffer. *)
Fixpoint expand_loop (rounds : nat) (pidStr inputCopy inputPID : string)
  : fault + string :=
  match strstr inputCopy dollars with
  | None => inr inputPID
  | Some found =>
      match rounds with
      | O => inl BufferOverrun
      | S rounds' =>
          (* strcpy(substring, strstr(inputCopy, dollars)) *)
          let substring := found in
          (* copyToken = strtok(inputCopy, "$$") *)
          let r := strtok inputCopy dollars in
          match tok r with
          | None => inl NullDeref            (* strcat(inputPID, NULL) *)
          | Some copyToken =>
              let inputPID := (inputPID +:+ copyToken) +:+ pidStr in
              let inputPID :=
                match tok (strtok substring dollars) with
                | Some substringToken => inputPID +:+ substringToken
                | None => inputPID
                end in
              expand_loop rounds' pidStr (reads r) inputPID
          end
      end
  end.

(** The whole stage: [inputPID] starts empty ([calloc]) and receives a copy
    of the line when the line has no marker. *)
Definition expandPID (pidStr inputCopy : string) : fault + string :=
  let inputPID :=
    match strstr inputCopy dollars with
    | None => inputCopy
    | Some _ => EmptyString
    end in
  expand_loop len pidStr inputCopy inputPID.

(** The expansion as the specification words it: scan left to right, replace
    each two-character match, never rescan what was inserted. *)
Fixpoint expand_spec (pidStr line : string) : string :=
  match line with
  | EmptyString => EmptyString
  | String c rest =>
      match rest with
      | String c' rest' =>
          if Ascii.eqb c "$" && Ascii.eqb c' "$"
          then pidStr +:+ expand_spec pidStr rest'
          else String c (expand_spec pidStr rest)
      | EmptyString => String c EmptyString
      end
  end.

(* ===================================================================== *)
(** * The structs and the global                                           *)
(* ===================================================================== *)

(** [struct command].  [arguments] holds the slots filled so far
    ([tokenCount] is its length, the array has 512 slots); a redirect that
    was never set is NULL. *)
Record struct_command := Command
  { command : string;
    arguments : list string;
    inputFile : option string;
    outputFile : option string;
    ampersand : Z }.

(** [struct processes].  [backgroundPids] is the array itself (all its
    slots), [pidCount] the number of slots in use.  The fields [exitedPids]
    and [exitedCount] are never read or written and are left out. *)
Record struct_processes := Processes
  { backgroundPids : list Z;
    pidCount : Z;
    status : Z;
    signal : Z }.

(** The signals, dispositions and flags the shell names. *)
Inductive signum : Type := SIGINT | SIGTSTP | SIGKILL.

Inductive disposition : Type := SIG_IGN | SIG_DFL | Handler_SIGTSTP.

Inductive open_flags : Type :=
| O_RDONLY
| O_WRONLY_CREAT_TRUNC.   (* O_WRONLY | O_CREAT | O_TRUNC, mode 0644 *)

Inductive wait_options : Type := WAIT_BLOCK | WNOHANG.

(** What [waitpid] stores through its status pointer, seen through the
    POSIX macros. *)
Inductive wait_status : Type :=
| Exited (code : Z)
| Signaled (sig : Z).

Definition WIFSIGNALED (st : wait_status) : bool :=
  match st with Signaled _ => true | Exited _ => false end.
Definition WTERMSIG (st : wait_status) : Z :=
  match st with Signaled s => s | Exited _ => 0 end.
Definition WEXITSTATUS (st : wait_status) : Z :=
  match st with Exited c => c | Signaled _ => 0 end.

(** One entry of the trace: a call that reaches the operating system, with
    its arguments and, where the shell looks at it, its answer.  [Printf] is
    a printf flushed to standard output, [Write] the unbuffered write. *)
Inductive event : Type :=
| Printf (text : string)
| Write (fd : Z) (text : string)
| Kill (pid : Z) (sig : signum)
| Chdir (path : option string) (result : Z)
| Open (path : string) (flags : open_flags) (result : Z)
| Fork (result : Z)
| Sigaction (sig : signum) (d : disposition)
| Dup2 (oldfd newfd result : Z)
| Execvp (file : string) (argv : list string)
| SetCloexec (fd : Z)
| Close (fd : Z)
| Waitpid (pid : Z) (options : wait_options) (result : option wait_status).

(** The memory of one shell process: the job table, the global
    [foreground], and the system calls made so far (oldest first). *)
Record world := World
  { procs : struct_processes;
    foreground : Z;
    trace : list event }.

(** The operating system's answers during one pass of the prompt loop, and
    the values the uninitialised locals of [otherCommands] happen to hold. *)
Record os_model := OS
  { os_getpid : Z;
    os_getenv_HOME : option string;
    os_chdir : option string -> Z;
    os_open : string -> open_flags -> Z;
    os_fork : Z;                          (* < 0 failure, 0 in the child *)
    os_dup2 : Z -> Z -> Z;
    os_execvp : string -> list string -> bool;   (* true: image replaced *)
    os_waitpid : Z -> wait_status;               (* blocking wait *)
    os_waitpid_WNOHANG : Z -> option wait_status;  (* None: returned <= 0 *)
    indet_sourceFD : Z;
    indet_targetFD : Z }.

(* ===================================================================== *)
(** * A monad for C statements                                            *)
(* ===================================================================== *)

(** Why a process stopped running the shell's code. *)
Inductive stop_reason : Type :=
| Faulted (f : fault)
| ProcessExit (code : Z)     (* exit(code) *)
| ImageReplaced.             (* a successful execvp *)

(** A statement either falls through to the next one, executes [return;]
    in the enclosing void function, or stops the process. *)
Inductive outcome (A : Type) : Type :=
| Next (a : A) (w : world)
| Returned (w : world)
| Stopped (why : stop_reason) (w : world).
Arguments Next {A} a w.
Arguments Returned {A} w.
Arguments Stopped {A} why w.

Definition M (A : Type) : Type := world -> outcome A.

Definition ret {A} (a : A) : M A := fun w => Next a w.

Definition bind {A B} (m : M A) (k : A -> M B) : M B :=
  fun w =>
    match m w with
    | Next a w' => k a w'
    | Returned w' => Returned w'
    | Stopped why w' => Stopped why w'
    end.

Notation "x <- m ;; k" := (bind m (fun x => k))
  (at level 100, m at next level, right associativity).
Notation "m ;; k" := (bind m (fun _ => k))
  (at level 100, right associativity).

(** [return;] and the call of a void function. *)
Definition return_ {A} : M A := fun w => Returned w.

Definition call (body : M unit) : M unit :=
  fun w =>
    match body w with
    | Next _ w' | Returned w' => Next tt w'
    | Stopped why w' => Stopped why w'
    end.

Definition stop {A} (why : stop_reason) : M A := fun w => Stopped why w.

(** The world an outcome leaves behind. *)
Definition world_of {A} (o : outcome A) : world :=
  match o with
  | Next _ w | Returned w | Stopped _ w => w
  end.

Definition emit (e : event) : M unit :=
  fun w => Next tt {| procs := procs w; foreground := foreground w;
                      trace := trace w ++ [e] |}.

Definition get_processes : M struct_processes := fun w => Next (procs w) w.

Definition put_processes (p : struct_processes) : M unit :=
  fun w => Next tt {| procs := p; foreground := foreground w; trace := trace w |}.

Definition get_foreground : M Z := fun w => Next (foreground w) w.

Definition set_foreground (v : Z) : M unit :=
  fun w => Next tt {| procs := procs w; foreground := v; trace := trace w |}.

(** [processes->status = v], [processes->signal = v],
    [processes->pidCount = v]. *)
Definition set_status (v : Z) : M unit :=
  p <- get_processes ;;
  put_processes {| backgroundPids := backgroundPids p; pidCount := pidCount p;
                   status := v; signal := signal p |}.

Definition set_signal (v : Z) : M unit :=
  p <- get_processes ;;
  put_processes {| backgroundPids := backgroundPids p; pidCount := pidCount p;
                   status := status p; signal := v |}.

Definition set_pidCount (v : Z) : M unit :=
  p <- get_processes ;;
  put_processes {| backgroundPids := backgroundPids p; pidCount := v;
                   status := status p; signal := signal p |}.

(** [processes->backgroundPids[i]], read and written. *)
Definition load_backgroundPid (i : Z) : M Z :=
  p <- get_processes ;;
  if i <? 0 then stop (Faulted OutOfBounds)
  else match backgroundPids p !! Z.to_nat i with
       | Some pid => ret pid
       | None => stop (Faulted OutOfBounds)
       end.

Definition store_backgroundPid (i pid : Z) : M unit :=
  p <- get_processes ;;
  if (0 <=? i) && (i <? Z.of_nat (length (backgroundPids p)))
  then put_processes {| backgroundPids := <[Z.to_nat i := pid]> (backgroundPids p);
                        pidCount := pidCount p;
                        status := status p; signal := signal p |}
  else stop (Faulted OutOfBounds).

(** [for (i = first; i < first + count; i++) body(i)], for a bound the
    body leaves alone. *)
Fixpoint for_loop (first : Z) (count : nat) (body : Z -> M unit) : M unit :=
  match count with
  | O => ret tt
  | S count' => body first ;; for_loop (first + 1) count' body
  end.

(** The "%d" conversion. *)
Definition decimal (z : Z) : string := NilZero.string_of_int (Z.to_int z).

(** printf followed by fflush: the text reaches standard output. *)
Definition printf (text : string) : M unit := emit (Printf text).

(** System calls: the answer comes from the [os_model], the call is
    recorded. *)
Section Syscalls.
Variable os : os_model.

Definition sys_open (path : string) (flags : open_flags) : M Z :=
  let fd := os_open os path flags in
  emit (Open path flags fd) ;; ret fd.

Definition sys_fork : M Z :=
  emit (Fork (os_fork os)) ;; ret (os_fork os).

Definition sys_dup2 (oldfd newfd : Z) : M Z :=
  let r := os_dup2 os oldfd newfd in
  emit (Dup2 oldfd newfd r) ;; ret r.

(** execvp comes back, with -1, only when it failed. *)
Definition sys_execvp (file : string) (argv : list string) : M Z :=
  emit (Execvp file argv) ;;
  if os_execvp os file argv then stop ImageReplaced else ret (-1).

Definition sys_chdir (path : option string) : M Z :=
  let r := os_chdir os path in
  emit (Chdir path r) ;; ret r.

Definition sys_waitpid (pid : Z) : M wait_status :=
  let st := os_waitpid os pid in
  emit (Waitpid pid WAIT_BLOCK (Some st)) ;; ret st.

Definition sys_waitpid_WNOHANG (pid : Z) : M (option wait_status) :=
  let r := os_waitpid_WNOHANG os pid in
  emit (Waitpid pid WNOHANG r) ;; ret r.
End Syscalls.

Definition sys_kill (pid : Z) (sig : signum) : M unit := emit (Kill pid sig).
Definition sys_close (fd : Z) : M unit := emit (Close fd).
Definition sys_fcntl_cloexec (fd : Z) : M unit := emit (SetCloexec fd).
Definition sigaction (sig : signum) (d : disposition) : M unit :=
  emit (Sigaction sig d).
Definition sys_write (fd : Z) (buf : string) (count : nat) : M unit :=
  emit (Write fd (String.substring 0 count buf)).

Definition STDOUT_FILENO : Z := 1.

(* ===================================================================== *)
(** * The functions of smallsh.c                                          *)
(* ===================================================================== *)

(** ** handle_SIGTSTP (lines 74-92) *)
Definition handle_SIGTSTP (signo : Z) : M unit :=
  call (
    fg <- get_foreground ;;
    if fg =? 0 then
      let message := "Entering foreground-only mode" in
      sys_write STDOUT_FILENO message 29 ;;
      set_foreground 1
    else
      let message := "Exiting foreground-only mode" in
      sys_write STDOUT_FILENO message 28 ;;
      set_foreground 0).

(** ** exitShell (lines 105-116) *)
Definition exitShell : M unit :=
  call (
    processes <- get_processes ;;
    for_loop 0 (Z.to_nat (pidCount processes))
      (fun i => pid <- load_backgroundPid i ;; sys_kill pid SIGKILL) ;;
    return_).

(** ** cdShell (lines 130-149).  [arguments[1]] is NULL when the line had
    no second argument. *)
Definition cdShell (os : os_model) (input : struct_command) : M unit :=
  call (
    match arguments input !! 1%nat with
    | None =>
        _ <- sys_chdir os (os_getenv_HOME os) ;; ret tt
    | Some path =>
        changeDir <- sys_chdir os (Some path) ;;
        if changeDir =? -1
        then printf ("Error finding this directory." +:+ nl)
        else ret tt
    end).

(** ** statusShell (lines 163-180) *)
Definition statusShell : M unit :=
  call (
    processes <- get_processes ;;
    if status processes =? 0 then
      printf ("exit value 0" +:+ nl)
    else if status processes =? 1 then
      printf ("exit value 1" +:+ nl)
    else
      printf ("terminated by signal " +:+ decimal (signal processes) +:+ nl)).

(** ** otherCommands (lines 194-389) *)
Definition otherCommands (os : os_model) (cmd : struct_command) : M unit :=
  call (
    (* lines 202-214 *)
    sourceFD <-
      match inputFile cmd with
      | Some path =>
          fd <- sys_open os path O_RDONLY ;;
          if fd =? -1 then
            set_status 1 ;;
            printf ("Cannot open " +:+ path +:+ " for input." +:+ nl) ;;
            return_
          else ret fd
      | None => ret (indet_sourceFD os)
      end ;;
    (* lines 215-225: the test reads sourceFD *)
    targetFD <-
      match outputFile cmd with
      | Some path =>
          fd <- sys_open os path O_WRONLY_CREAT_TRUNC ;;
          if sourceFD =? -1 then
            set_status 1 ;;
            return_
          else ret fd
      | None => ret (indet_targetFD os)
      end ;;
    (* line 227 *)
    newPid <- sys_fork os ;;
    (* lines 231-241 *)
    fds <-
      (if ampersand cmd =? 1 then
         sourceFD <-
           match outputFile cmd with
           | None => sys_open os "/dev/null/" O_RDONLY
           | Some _ => ret sourceFD
           end ;;
         targetFD <-
           match inputFile cmd with
           | None => sys_open os "/dev/null/" O_WRONLY_CREAT_TRUNC
           | Some _ => ret targetFD
           end ;;
         ret (sourceFD, targetFD)
       else ret (sourceFD, targetFD)) ;;
    let sourceFD := fst fds in
    let targetFD := snd fds in
    (* lines 244-254 *)
    sigaction SIGINT SIG_IGN ;;
    sigaction SIGTSTP SIG_IGN ;;
    if newPid <? 0 then
      (* lines 257-263 *)
      set_status 1 ;;
      printf "fork() failed." ;;
      return_
    else if newPid =? 0 then
      (* the child, lines 265-328 *)
      (if ampersand cmd =? 0 then sigaction SIGINT SIG_DFL else ret tt) ;;
      match inputFile cmd with
      | Some _ =>
          resultInput <- sys_dup2 os sourceFD 0 ;;
          if resultInput =? -1 then set_status 1 ;; return_ else ret tt
      | None => ret tt
      end ;;
      match outputFile cmd with
      | Some _ =>
          resultOutput <- sys_dup2 os targetFD 1 ;;
          if resultOutput =? -1 then set_status 1 ;; return_ else ret tt
      | None => ret tt
      end ;;
      r <- sys_execvp os (command cmd) (arguments cmd) ;;
      (if r =? -1 then
         printf ("Command not found." +:+ nl) ;;
         set_status 1
       else ret tt) ;;
      match inputFile cmd with
      | Some _ => sys_fcntl_cloexec sourceFD
      | None => ret tt
      end ;;
      match outputFile cmd with
      | Some _ => sys_fcntl_cloexec targetFD
      | None => ret tt
      end ;;
      stop (ProcessExit 1)
    else
      (* the parent, lines 330-388 *)
      match inputFile cmd with
      | Some _ => sys_close sourceFD
      | None => ret tt
      end ;;
      match outputFile cmd with
      | Some _ => sys_close targetFD
      | None => ret tt
      end ;;
      (if ampersand cmd =? 0 then
         sigaction SIGTSTP Handler_SIGTSTP ;;
         childStatus <- sys_waitpid os newPid ;;
         if WIFSIGNALED childStatus then
           printf ("Child terminated with signal "
                   +:+ decimal (WTERMSIG childStatus) +:+ nl) ;;
           set_signal (WTERMSIG childStatus) ;;
           set_status 2
         else
           set_status (WEXITSTATUS childStatus)
       else
         printf ("Background process is " +:+ decimal newPid +:+ nl) ;;
         processes <- get_processes ;;
         let backgroundIndex := pidCount processes in
         store_backgroundPid backgroundIndex newPid ;;
         set_pidCount (pidCount processes + 1) ;;
         sigaction SIGTSTP Handler_SIGTSTP) ;;
      return_).

(** ** parseInput (lines 402-570) *)

(** The [while (token != NULL)] loop of lines 500-541.  [rest] lists the
    tokens [strtok(NULL, " ")] has still to deliver, [token] first.  The
    argument vector is the array [char* arguments[512]]: a store at index
    512 or beyond is outside it. *)
Fixpoint tokenize_loop (foreground : Z) (rest : list string)
    (currentCommand : struct_command) : fault + struct_command :=
  match rest with
  | [] => inr currentCommand
  | token :: rest' =>
      if String.eqb token "<" then
        match rest' with
        | [] => inl NullDeref                      (* strlen(NULL) *)
        | file :: rest'' =>
            tokenize_loop foreground rest''
              {| command := command currentCommand;
                 arguments := arguments currentCommand;
                 inputFile := Some file;
                 outputFile := outputFile currentCommand;
                 ampersand := ampersand currentCommand |}
        end
      else if String.eqb token ">" then
        match rest' with
        | [] => inl NullDeref                      (* strlen(NULL) *)
        | file :: rest'' =>
            tokenize_loop foreground rest''
              {| command := command currentCommand;
                 arguments := arguments currentCommand;
                 inputFile := inputFile currentCommand;
                 outputFile := Some file;
                 ampersand := ampersand currentCommand |}
        end
      else if String.eqb token "&" then
        match rest' with
        | [] =>
            inr (if foreground =? 0
                 then {| command := command currentCommand;
                         arguments := arguments currentCommand;
                         inputFile := inputFile currentCommand;
                         outputFile := outputFile currentCommand;
                         ampersand := 1 |}
                 else currentCommand)
        | _ :: _ => tokenize_loop foreground rest' currentCommand
        end
      else
        (* lines 535-540: arguments[tokenCount] of char* arguments[512] *)
        let tokenCount := Z.of_nat (length (arguments currentCommand)) in
        if tokenCount <? 512 then
          tokenize_loop foreground rest'
            {| command := command currentCommand;
               arguments := arguments currentCommand ++ [token];
               inputFile := inputFile currentCommand;
               outputFile := outputFile currentCommand;
               ampersand := ampersand currentCommand |}
        else inl OutOfBounds
  end.

(** Lines 481-541: the Command Record built from the expanded line. *)
Definition build_command (foreground : Z) (inputPID : string)
  : fault + struct_command :=
  match tokens inputPID " " with
  | [] => inl NullDeref                            (* strlen(NULL) *)
  | token :: rest =>
      tokenize_loop foreground rest
        {| command := token; arguments := [token];
           inputFile := None; outputFile := None; ampersand := 0 |}
  end.

(** Lines 547-566: which function runs the command. *)
Definition dispatch (os : os_model) (currentCommand : struct_command) : M Z :=
  if String.eqb (command currentCommand) "exit" then
    exitShell ;; ret 1
  else if String.eqb (command currentCommand) "cd" then
    cdShell os currentCommand ;; ret 0
  else if String.eqb (command currentCommand) "status" then
    statusShell ;; ret 0
  else
    otherCommands os currentCommand ;; ret 0.

Definition parseInput (os : os_model) (input : option string) : M Z :=
  match input with
  | None => stop (Faulted NullDeref)               (* strcpy(inputCopy, NULL) *)
  | Some input =>
      let inputCopy := input in
      let first := strtok input " " in
      let startToken := tok first in
      let input := reads first in
      (* lines 426-440 *)
      if String.eqb input nl then
        printf nl ;; ret 0
      else
        match startToken with
        | None => ret 0
        | Some _ =>
            if first_char_eq input "#" then ret 0
            else
              (* lines 442-479 *)
              match expandPID (pidString (os_getpid os)) inputCopy with
              | inl f => stop (Faulted f)
              | inr inputPID =>
                  (* lines 481-566 *)
                  fg <- get_foreground ;;
                  match build_command fg inputPID with
                  | inl f => stop (Faulted f)
                  | inr currentCommand => dispatch os currentCommand
                  end
              end
        end
  end.

(** ** shell (lines 580-643) *)

(** Lines 609-636: the sweep over the background PIDs. *)
Definition reap (os : os_model) : M unit :=
  currentProcesses <- get_processes ;;
  for_loop 0 (Z.to_nat (pidCount currentProcesses))
    (fun i =>
       pid <- load_backgroundPid i ;;
       r <- sys_waitpid_WNOHANG os pid ;;
       match r with
       | Some backgroundStatus =>
           if WIFSIGNALED backgroundStatus then
             printf ("Process " +:+ decimal pid +:+ " terminated with signal "
                     +:+ decimal (WTERMSIG backgroundStatus) +:+ nl) ;;
             set_signal (WTERMSIG backgroundStatus) ;;
             set_status 2
           else
             set_status (WEXITSTATUS backgroundStatus) ;;
             printf ("Process " +:+ decimal pid +:+ " ended with status "
                     +:+ decimal (WEXITSTATUS backgroundStatus) +:+ nl)
       | None => ret tt
       end).

(** One pass of the [while (loop == 0)] body: [line] is what getline read,
    newline included. *)
Definition shell_iteration (os : os_model) (line : string) : M Z :=
  printf ": " ;;
  let input := tok (strtok line nl) in
  loop <- parseInput os input ;;
  reap os ;;
  ret loop.

(** The loop, fed the lines of standard input together with the operating
    system's answers during each pass.  End of input is not modelled: the
    run is cut where the script ends. *)
Fixpoint shell_loop (stdin : list (os_model * string)) : M unit :=
  match stdin with
  | [] => ret tt
  | (os, line) :: stdin' =>
      loop <- shell_iteration os line ;;
      if loop =? 0 then shell_loop stdin' else ret tt
  end.

Definition shell (stdin : list (os_model * string)) : M unit :=
  call (set_status 0 ;; shell_loop stdin).

(** ** main (lines 654-678) *)
Definition main (stdin : list (os_model * string)) : M Z :=
  set_foreground 0 ;;
  sigaction SIGINT SIG_IGN ;;
  sigaction SIGTSTP Handler_SIGTSTP ;;
  shell stdin ;;
  ret 0.

(** The run of the program: [heap] is whatever malloc hands [shell] for
    its [struct processes]. *)
Definition run (heap : struct_processes) (stdin : list (os_model * string))
  : outcome Z :=
  main stdin {| procs := heap; foreground := 0; trace := [] |}.


(* ===================================================================== *)
(** * Vocabulary of the properties                                        *)
(* ===================================================================== *)

(** The PIDs the job table tracks: the slots in use, in insertion order. *)
Definition tracked (p : struct_processes) : list Z :=
  take (Z.to_nat (pidCount p)) (backgroundPids p).

(** The counter points inside the array. *)
Definition table_ok (p : struct_processes) : Prop :=
  0 <= pidCount p <= Z.of_nat (length (backgroundPids p)).

(** The calls the sweep makes for one PID, report included, and the job
    table it leaves. *)
Definition reaper_report (os : os_model) (pid : Z) : list event :=
  Waitpid pid WNOHANG (os_waitpid_WNOHANG os pid) ::
  match os_waitpid_WNOHANG os pid with
  | Some (Signaled n) =>
      [Printf ("Process " +:+ decimal pid +:+ " terminated with signal "
               +:+ decimal n +:+ nl)]
  | Some (Exited c) =>
      [Printf ("Process " +:+ decimal pid +:+ " ended with status "
               +:+ decimal c +:+ nl)]
  | None => []
  end.

Definition reaper_status (os : os_model) (p : struct_processes) (pid : Z)
  : struct_processes :=
  match os_waitpid_WNOHANG os pid with
  | Some (Signaled n) =>
      {| backgroundPids := backgroundPids p; pidCount := pidCount p;
         status := 2; signal := n |}
  | Some (Exited c) =>
      {| backgroundPids := backgroundPids p; pidCount := pidCount p;
         status := c; signal := signal p |}
  | None => p
  end.

(** The world after the sweep has dealt with one PID. *)
Definition reap_one (os : os_model) (pid : Z) (w : world) : world :=
  {| procs := reaper_status os (procs w) pid;
     foreground := foreground w;
     trace := trace w ++ reaper_report os pid |}.

(** The world after [events] have been added to the trace. *)
Definition logged (w : world) (events : list event) : world :=
  {| procs := procs w; foreground := foreground w; trace := trace w ++ events |}.

(** The force-kill of every PID of a list. *)
Definition kills (pids : list Z) : list event :=
  map (fun pid => Kill pid SIGKILL) pids.

(** A Command Record whose program is [name]. *)
Definition built (name : string) (args : list string)
    (i o : option string) (amp : Z) : struct_command :=
  {| command := name; arguments := name :: args;
     inputFile := i; outputFile := o; ampersand := amp |}.

(** [c] with further arguments. *)
Definition with_arguments (c : struct_command) (more : list string)
  : struct_command :=
  {| command := command c; arguments := arguments c ++ more;
     inputFile := inputFile c; outputFile := outputFile c;
     ampersand := ampersand c |}.

(** The two messages of the suspend-signal handler. *)
Definition entering : string := "Entering foreground-only mode".
Definition exiting : string := "Exiting foreground-only mode".

(** A statement that leaves the job table as it found it, however it ends. *)
Definition keeps_procs {A} (m : M A) : Prop :=
  forall w, procs (world_of (m w)) = procs w.

(** Tokens the tokenizer appends to the argument list. *)
Definition ordinary (token : string) : Prop :=
  token <> "<" /\ token <> ">" /\ token <> "&".









(** [otherCommands] gets past its two opens (lines 202-225): the input
    file, if any, opens; and the test after the output open, which reads
    [sourceFD], does not find -1 in the uninitialised variable when there is
    no input file. *)
Definition redirects_open (os : os_model) (cmd : struct_command) : Prop :=
  (forall path, inputFile cmd = Some path -> os_open os path O_RDONLY <> -1)
  /\ (inputFile cmd = None -> outputFile cmd <> None ->
      indet_sourceFD os <> -1).

(** The descriptors the child hands to [dup2] (lines 281 and 294): what
    lines 204 and 217 stored, unless lines 235 and 239 overwrote it. *)
Definition sourceFD_at_dup2 (os : os_model) (cmd : struct_command) : Z :=
  match outputFile cmd with
  | None =>
      if ampersand cmd =? 1 then os_open os "/dev/null/" O_RDONLY
      else match inputFile cmd with
           | Some path => os_open os path O_RDONLY
           | None => indet_sourceFD os
           end
  | Some _ =>
      match inputFile cmd with
      | Some path => os_open os path O_RDONLY
      | None => indet_sourceFD os
      end
  end.

Definition targetFD_at_dup2 (os : os_model) (cmd : struct_command) : Z :=
  match inputFile cmd with
  | None =>
      if ampersand cmd =? 1
      then os_open os "/dev/null/" O_WRONLY_CREAT_TRUNC
      else match outputFile cmd with
           | Some path => os_open os path O_WRONLY_CREAT_TRUNC
           | None => indet_targetFD os
           end
  | Some _ =>
      match outputFile cmd with
      | Some path => os_open os path O_WRONLY_CREAT_TRUNC
      | None => indet_targetFD os
      end
  end.

(** A run that did not end in a memory fault.  After a fault the C
    program has no defined state, so nothing is said about such runs. *)
Definition ends_cleanly {A} (o : outcome A) : Prop :=
  match o with
  | Stopped (Faulted _) _ => False
  | _ => True
  end.

(** No [$] anywhere in the string. *)
Fixpoint dollar_free (s : string) : bool :=
  match s with
  | EmptyString => true
  | String c s' => negb (Ascii.eqb c "$") && dollar_free s'
  end.

(** Every character of the line is a space. *)
Fixpoint only_spaces (line : string) : bool :=
  match line with
  | EmptyString => true
  | String c line' => Ascii.eqb c " " && only_spaces line'
  end.

(** No newline inside the line. *)
Fixpoint no_newline (line : string) : bool :=
  match line with
  | EmptyString => true
  | String c line' => negb (Ascii.eqb c newline) && no_newline line'
  end.

Definition is_fork (e : event) : bool :=
  match e with Fork _ => true | _ => false end.
Definition is_dup2 (e : event) : bool :=
  match e with Dup2 _ _ _ => true | _ => false end.
Definition is_blocking_wait (e : event) : bool :=
  match e with Waitpid _ WAIT_BLOCK _ => true | _ => false end.
Definition is_printf (e : event) : bool :=
  match e with Printf _ => true | _ => false end.

(** ** Scenarios *)

(** An operating system in which everything succeeds: descriptors 3 and 4,
    child pid 1000, exit code 0, nothing to reap. *)
Definition calm : os_model :=
  {| os_getpid := 4242;
     os_getenv_HOME := Some "/home/user";
     os_chdir := fun _ => 0;
     os_open := fun _ fl => match fl with O_RDONLY => 3 | _ => 4 end;
     os_fork := 1000;
     os_dup2 := fun _ newfd => newfd;
     os_execvp := fun _ _ => true;
     os_waitpid := fun _ => Exited 0;
     os_waitpid_WNOHANG := fun _ => None;
     indet_sourceFD := 0;
     indet_targetFD := 0 |}.

(** [calm], except that the foreground child ends as [st] says. *)
Definition child_ends (st : wait_status) : os_model :=
  {| os_getpid := os_getpid calm;
     os_getenv_HOME := os_getenv_HOME calm;
     os_chdir := os_chdir calm;
     os_open := os_open calm;
     os_fork := os_fork calm;
     os_dup2 := os_dup2 calm;
     os_execvp := os_execvp calm;
     os_waitpid := fun _ => st;
     os_waitpid_WNOHANG := os_waitpid_WNOHANG calm;
     indet_sourceFD := indet_sourceFD calm;
     indet_targetFD := indet_targetFD calm |}.

(** [calm], except that [path] cannot be opened and [dup2] of a bad
    descriptor fails. *)
Definition cannot_open (path : string) : os_model :=
  {| os_getpid := os_getpid calm;
     os_getenv_HOME := os_getenv_HOME calm;
     os_chdir := os_chdir calm;
     os_open := fun p fl => if String.eqb p path then -1 else os_open calm p fl;
     os_fork := os_fork calm;
     os_dup2 := fun oldfd newfd => if oldfd <? 0 then -1 else newfd;
     os_execvp := os_execvp calm;
     os_waitpid := os_waitpid calm;
     os_waitpid_WNOHANG := os_waitpid_WNOHANG calm;
     indet_sourceFD := indet_sourceFD calm;
     indet_targetFD := indet_targetFD calm |}.

(** The child's side of a fork, with [open] answering as [opener] says and
    [dup2] refusing a bad descriptor. *)
Definition in_child (opener : string -> open_flags -> Z) : os_model :=
  {| os_getpid := os_getpid calm;
     os_getenv_HOME := os_getenv_HOME calm;
     os_chdir := os_chdir calm;
     os_open := opener;
     os_fork := 0;
     os_dup2 := fun oldfd newfd => if oldfd <? 0 then -1 else newfd;
     os_execvp := os_execvp calm;
     os_waitpid := os_waitpid calm;
     os_waitpid_WNOHANG := os_waitpid_WNOHANG calm;
     indet_sourceFD := indet_sourceFD calm;
     indet_targetFD := indet_targetFD calm |}.

(** Only the file [in] can be opened; in particular [/dev/null/], which
    names no directory, cannot. *)
Definition only_in (path : string) (flags : open_flags) : Z :=
  if String.eqb path "in" then 3 else -1.

(** [calm], except that the non-blocking wait finds [pid] ended as [st]. *)
Definition has_ended (pid : Z) (st : wait_status) : os_model :=
  {| os_getpid := os_getpid calm;
     os_getenv_HOME := os_getenv_HOME calm;
     os_chdir := os_chdir calm;
     os_open := os_open calm;
     os_fork := os_fork calm;
     os_dup2 := os_dup2 calm;
     os_execvp := os_execvp calm;
     os_waitpid := os_waitpid calm;
     os_waitpid_WNOHANG := fun p => if p =? pid then Some st else None;
     indet_sourceFD := indet_sourceFD calm;
     indet_targetFD := indet_targetFD calm |}.

(** [calm], except that fork hands back [pid]. *)
Definition fork_gives (pid : Z) : os_model :=
  {| os_getpid := os_getpid calm;
     os_getenv_HOME := os_getenv_HOME calm;
     os_chdir := os_chdir calm;
     os_open := os_open calm;
     os_fork := pid;
     os_dup2 := os_dup2 calm;
     os_execvp := os_execvp calm;
     os_waitpid := os_waitpid calm;
     os_waitpid_WNOHANG := os_waitpid_WNOHANG calm;
     indet_sourceFD := indet_sourceFD calm;
     indet_targetFD := indet_targetFD calm |}.

(** A job table in zero-filled memory, but for the [signal] field. *)
Definition fresh_heap (junk_signal : Z) : struct_processes :=
  {| backgroundPids := replicate 500 0; pidCount := 0;
     status := 0; signal := junk_signal |}.

(** A shell at its prompt with the given job table. *)
Definition at_prompt (p : struct_processes) (fg : Z) : world :=
  {| procs := p; foreground := fg; trace := [] |}.

(** A table tracking the two PIDs 41 and 42. *)
Definition two_jobs : struct_processes :=
  {| backgroundPids := 41 :: 42 :: replicate 498 0; pidCount := 2;
     status := 0; signal := 0 |}.

(* ===================================================================== *)
(** * Vocabulary of the further properties                                *)
(* ===================================================================== *)

(** Every character of the string is a [$]. *)
Fixpoint only_dollars (s : string) : bool :=
  match s with
  | EmptyString => true
  | String c s' => Ascii.eqb c "$" && only_dollars s'
  end.

(** No character of [t] belongs to the delimiter set. *)
Fixpoint free_of (delim t : string) : bool :=
  match t with
  | EmptyString => true
  | String c t' => negb (member c delim) && free_of delim t'
  end.

(** A token as [strtok] delivers them: not empty, no delimiter inside. *)
Definition proper_token (delim t : string) : Prop :=
  t <> EmptyString /\ free_of delim t = true.

(** A statement whose run, however it ends, relates the world it started
    in to the world it leaves by [R]. *)
Definition preserves {A} (R : world -> world -> Prop) (m : M A) : Prop :=
  forall w, R w (world_of (m w)).

(** The PID array and its counter are the same. *)
Definition same_pids (w w' : world) : Prop :=
  backgroundPids (procs w') = backgroundPids (procs w)
  /\ pidCount (procs w') = pidCount (procs w).

(** The global [foreground] is the same. *)
Definition same_flag (w w' : world) : Prop := foreground w' = foreground w.

(** The line a background launch prints, and the test for it. *)
Definition background_report (pid : Z) : event :=
  Printf ("Background process is " +:+ decimal pid +:+ nl).

Definition is_background_report (e : event) : bool :=
  match e with
  | Printf text => starts_with text "Background process is "
  | _ => false
  end.

(** If the counter was inside the array it still is, and the tracked PIDs
    are the old ones followed by the PIDs announced since, one per
    [Background process is] line and in the order of these lines. *)
Definition pids_extend (w w' : world) : Prop :=
  table_ok (procs w) ->
  table_ok (procs w')
  /\ exists more events,
       tracked (procs w') = tracked (procs w) ++ more
       /\ trace w' = trace w ++ events
       /\ List.filter is_background_report events = map background_report more.

(** A statement whose run, unless it ends in a memory fault, relates the
    world it started in to the world it leaves by [R]. *)
Definition preserves_clean {A} (R : world -> world -> Prop) (m : M A) : Prop :=
  forall w, ends_cleanly (m w) -> R w (world_of (m w)).

(** The trace has only grown, and only by events that satisfy [P]. *)
Definition grows_by (P : event -> Prop) (w w' : world) : Prop :=
  exists events, trace w' = trace w ++ events /\ Forall P events.

(** The shell never asks for this in its own process: the default
    disposition of the interrupt signal. *)
Definition not_sigint_default (e : event) : Prop :=
  e <> Sigaction SIGINT SIG_DFL.

(** Anything but the line a background launch prints. *)
Definition not_background_report (e : event) : Prop :=
  match e with
  | Printf text => starts_with text "Background process is " = false
  | _ => True
  end.

Definition is_execvp (e : event) : bool :=
  match e with Execvp _ _ => true | _ => false end.
Definition is_wait (e : event) : bool :=
  match e with Waitpid _ _ _ => true | _ => false end.

(** A system that cannot create a process, and on which [/dev/null/]
    cannot be opened. *)
Definition fork_fails : os_model :=
  {| os_getpid := os_getpid calm;
     os_getenv_HOME := os_getenv_HOME calm;
     os_chdir := os_chdir calm;
     os_open := os_open (cannot_open "/dev/null/");
     os_fork := -1;
     os_dup2 := os_dup2 (cannot_open "/dev/null/");
     os_execvp := os_execvp calm;
     os_waitpid := os_waitpid calm;
     os_waitpid_WNOHANG := os_waitpid_WNOHANG calm;
     indet_sourceFD := indet_sourceFD calm;
     indet_targetFD := indet_targetFD calm |}.

(** A job table whose two slots are both in use. *)
Definition full_table : struct_processes :=
  {| backgroundPids := [41; 42]; pidCount := 2; status := 0; signal := 0 |}.

(** A job table whose counter points past its two slots. *)
Definition wild_counter : struct_processes :=
  {| backgroundPids := [41; 42]; pidCount := 7; status := 0; signal := 0 |}.

(* ===================================================================== *)
(** * Facts about the string routines                                     *)
(* ===================================================================== *)

Lemma append_nil (t : string) : EmptyString +:+ t = t.
Proof. reflexivity. Qed.

Lemma append_cons (c : ascii) (s t : string) :
  String c s +:+ t = String c (s +:+ t).
Proof. reflexivity. Qed.

Lemma append_empty_r (s : string) : s +:+ EmptyString = s.
Proof.
  induction s as [|c s IH]; [reflexivity|].
  rewrite append_cons. now f_equal.
Qed.

Lemma append_assoc (a b c : string) : (a +:+ b) +:+ c = a +:+ (b +:+ c).
Proof.
  induction a as [|x a IH]; [reflexivity|].
  rewrite !append_cons. now f_equal.
Qed.

Lemma append_cancel_l (p a b : string) : p +:+ a = p +:+ b -> a = b.
Proof.
  induction p as [|x p IH]; intros H; [assumption|].
  rewrite !append_cons in H. injection H as H. now apply IH.
Qed.

(** "%d" never prints the empty string. *)
Lemma decimal_nonempty (z : Z) : decimal z <> EmptyString.
Proof.
  unfold decimal. destruct (Z.to_int z) as [d|d]; simpl.
  - destruct d; simpl; discriminate.
  - discriminate.
Qed.

(** [tokens] is what repeated calls of [strtok] deliver. *)
Lemma tokens_from_token (delim s cur : string) :
  tokens_from delim s (Some cur)
  = (cur +:+ fst (span_out delim s))
    :: tokens_from delim
         match snd (span_out delim s) with
         | EmptyString => EmptyString
         | String _ r => r
         end None.
Proof.
  revert cur. induction s as [|c s IH]; intros cur.
  - cbn. now rewrite append_empty_r.
  - cbn [tokens_from span_out]. destruct (member c delim).
    + cbn. now rewrite append_empty_r.
    + rewrite IH. destruct (span_out delim s) as [run rest]. cbn [fst snd].
      now rewrite append_assoc.
Qed.

Lemma tokens_strtok (s delim : string) :
  tokens s delim
  = match tok (strtok s delim) with
    | None => []
    | Some t => t :: tokens (saved (strtok s delim)) delim
    end.
Proof.
  unfold tokens, strtok. induction s as [|c s IH]; [reflexivity|].
  cbn [tokens_from span_in]. destruct (member c delim) eqn:Hc.
  - rewrite IH. destruct (span_in delim s) as [lead body].
    destruct body as [|b body]; [reflexivity|].
    destruct (span_out delim (String b body)) as [t rest]. reflexivity.
  - rewrite tokens_from_token. cbn [span_out]. rewrite Hc.
    destruct (span_out delim s) as [run rest]. reflexivity.
Qed.

(* ===================================================================== *)
(** * C1: the expansion of the marker                                     *)
(* ===================================================================== *)

(** The loop is over as soon as the copy holds no marker. *)
Lemma expand_loop_done (n : nat) (p inputCopy inputPID : string) :
  strstr inputCopy dollars = None ->
  expand_loop n p inputCopy inputPID = inr inputPID.
Proof. intros H. destruct n; simpl; now rewrite H. Qed.

(** A line without the marker is copied as it is. *)
Lemma expandPID_no_marker (p line : string) :
  strstr line dollars = None -> expandPID p line = inr line.
Proof.
  intros H. unfold expandPID. rewrite H. now apply expand_loop_done.
Qed.

Lemma strstr_dollar_free (s : string) :
  dollar_free s = true -> strstr s dollars = None.
Proof.
  induction s as [|c s IH]; intros H; [reflexivity|].
  simpl in H. apply andb_prop in H as [Hc Hs].
  cbn [strstr dollars starts_with].
  apply negb_true_iff in Hc. rewrite Hc. now apply IH.
Qed.

(** The first token of a [$]-free text followed by a [$] is that text. *)
Lemma span_out_dollar_free (s rest : string) :
  dollar_free s = true ->
  span_out dollars (s +:+ String "$" rest) = (s, String "$" rest).
Proof.
  induction s as [|c s IH]; intros H; [reflexivity|].
  simpl in H. apply andb_prop in H as [Hc Hs].
  rewrite append_cons. cbn [span_out].
  replace (member c dollars) with false.
  - now rewrite IH.
  - unfold dollars. simpl. apply negb_true_iff in Hc. now rewrite Hc.
Qed.

Lemma span_out_dollar_free_end (s : string) :
  dollar_free s = true -> span_out dollars s = (s, EmptyString).
Proof.
  induction s as [|c s IH]; intros H; [reflexivity|].
  simpl in H. apply andb_prop in H as [Hc Hs].
  cbn [span_out].
  replace (member c dollars) with false.
  - now rewrite IH.
  - unfold dollars. simpl. apply negb_true_iff in Hc. now rewrite Hc.
Qed.

Lemma strstr_skip_dollar_free (s rest : string) :
  dollar_free s = true ->
  strstr (s +:+ String "$" (String "$" rest)) dollars
  = Some (String "$" (String "$" rest)).
Proof.
  induction s as [|c s IH]; intros H; [reflexivity|].
  simpl in H. apply andb_prop in H as [Hc Hs].
  rewrite append_cons. cbn [strstr dollars starts_with].
  apply negb_true_iff in Hc. rewrite Hc. now apply IH.
Qed.

Lemma expand_loop_step (n : nat) (p inputCopy inputPID : string) :
  expand_loop (S n) p inputCopy inputPID
  = match strstr inputCopy dollars with
    | None => inr inputPID
    | Some found =>
        match tok (strtok inputCopy dollars) with
        | None => inl NullDeref
        | Some copyToken =>
            expand_loop n p (reads (strtok inputCopy dollars))
              match tok (strtok found dollars) with
              | Some substringToken =>
                  ((inputPID +:+ copyToken) +:+ p) +:+ substringToken
              | None => (inputPID +:+ copyToken) +:+ p
              end
        end
    end.
Proof. reflexivity. Qed.

Lemma len_positive : exists n, len = S n.
Proof. now exists (Nat.pred len). Qed.

Lemma strtok_first_text (c : ascii) (before rest : string) :
  dollar_free (String c before) = true ->
  strtok (String c before +:+ String "$" rest) dollars
  = {| tok := Some (String c before); reads := String c before; saved := rest |}.
Proof.
  intros H. unfold strtok.
  assert (Hm : member c dollars = false).
  { simpl in H. apply andb_prop in H as [Hc _].
    apply negb_true_iff in Hc. unfold dollars. simpl. now rewrite Hc. }
  rewrite append_cons. cbn [span_in]. rewrite Hm.
  rewrite <- append_cons. now rewrite (span_out_dollar_free _ rest H).
Qed.

Lemma strtok_after_marker (after : string) :
  dollar_free after = true ->
  tok (strtok (String "$" (String "$" after)) dollars)
  = match after with EmptyString => None | String _ _ => Some after end.
Proof.
  intros H. destruct after as [|a after]; [reflexivity|].
  assert (Hc : Ascii.eqb a "$" = false).
  { simpl in H. apply andb_prop in H as [Hc _]. now apply negb_true_iff in Hc. }
  unfold strtok. cbn [span_in member dollars Ascii.eqb Bool.eqb orb].
  rewrite Hc. cbn [orb].
  now rewrite (span_out_dollar_free_end _ H).
Qed.

(** What the stage achieves: one marker, after a non-empty text, in a line
    with no other [$], is replaced as the specification says. *)
Lemma expandPID_single_marker (p : string) (c : ascii) (before after : string) :
  dollar_free (String c before) = true ->
  dollar_free after = true ->
  expandPID p (String c before +:+ dollars +:+ after)
  = inr (String c before +:+ p +:+ after).
Proof.
  intros Hb Ha.
  change (dollars +:+ after) with (String "$" (String "$" after)).
  unfold expandPID. rewrite (strstr_skip_dollar_free _ after Hb).
  destruct len_positive as [n ->]. rewrite expand_loop_step.
  rewrite (strstr_skip_dollar_free _ after Hb).
  rewrite (strtok_first_text _ _ _ Hb). cbn [tok reads].
  rewrite (strtok_after_marker _ Ha).
  rewrite expand_loop_done by now apply strstr_dollar_free.
  rewrite append_nil.
  destruct after; [now rewrite append_empty_r | now rewrite append_assoc].
Qed.

(** The specification's expansion agrees on those lines. *)
Lemma expand_spec_dollar_free (p s : string) :
  dollar_free s = true -> expand_spec p s = s.
Proof.
  induction s as [|c s IH]; intros H; [reflexivity|].
  simpl in H. apply andb_prop in H as [Hc Hs].
  apply negb_true_iff in Hc.
  cbn [expand_spec]. destruct s as [|c' s]; [reflexivity|].
  rewrite Hc. cbn [andb]. now rewrite (IH Hs).
Qed.

Lemma expand_spec_single_marker (p before after : string) :
  dollar_free before = true ->
  dollar_free after = true ->
  expand_spec p (before +:+ dollars +:+ after) = before +:+ p +:+ after.
Proof.
  intros Hb Ha. induction before as [|c s IH].
  - change (expand_spec p (String "$" (String "$" after)) = p +:+ after).
    cbn [expand_spec Ascii.eqb Bool.eqb andb].
    now rewrite (expand_spec_dollar_free _ _ Ha).
  - simpl in Hb. apply andb_prop in Hb as [Hc Hs].
    apply negb_true_iff in Hc.
    rewrite !append_cons. cbn [expand_spec].
    destruct (s +:+ dollars +:+ after) eqn:E.
    + destruct s; discriminate E.
    + rewrite Hc. cbn [andb]. now rewrite (IH Hs).
Qed.

(** C1 (the code against the claim).  On the line [echo $$ $$], whatever
    the shell's process id, the expansion stage of [parseInput] replaces the
    first marker only and loses the second one with the text after it, where
    the specified expansion puts the process id in both places. *)
Theorem expandPID_loses_second_marker (pid : Z) :
  expandPID (pidString pid) "echo $$ $$"
  = inr ("echo " +:+ pidString pid +:+ " ")
  /\ expand_spec (pidString pid) "echo $$ $$"
     = "echo " +:+ pidString pid +:+ " " +:+ pidString pid
  /\ expandPID (pidString pid) "echo $$ $$"
     <> inr (expand_spec (pidString pid) "echo $$ $$").
Proof.
  assert (Hcode : expandPID (pidString pid) "echo $$ $$"
                  = inr ("echo " +:+ pidString pid +:+ " ")).
  { unfold expandPID. destruct len_positive as [n ->].
    change (strstr "echo $$ $$" dollars) with (Some "$$ $$").
    rewrite expand_loop_step.
    change (strstr "echo $$ $$" dollars) with (Some "$$ $$").
    change (strtok "echo $$ $$" dollars)
      with {| tok := Some "echo "; reads := "echo "; saved := "$ $$" |}.
    change (strtok "$$ $$" dollars)
      with {| tok := Some " "; reads := "$$ "; saved := "$" |}.
    cbn [tok reads]. rewrite expand_loop_done by reflexivity.
    reflexivity. }
  assert (Hspec : expand_spec (pidString pid) "echo $$ $$"
                  = "echo " +:+ pidString pid +:+ " " +:+ pidString pid).
  { cbn [expand_spec Ascii.eqb Bool.eqb andb]. rewrite append_empty_r.
    reflexivity. }
  split; [exact Hcode|]. split; [exact Hspec|].
  rewrite Hcode, Hspec. intros E. injection E as E.
  change (pidString pid +:+ " " +:+ EmptyString
          = pidString pid +:+ " " +:+ pidString pid) in E.
  apply append_cancel_l in E. apply (append_cancel_l " ") in E.
  now apply (decimal_nonempty pid).
Qed.


(** Other lines the stage mishandles: a marker at the very start hands a
    NULL to [strcat]; a marker at the start followed by text never leaves the
    loop, which runs [inputPID] over; a lone [$] before the marker is lost
    with the text after it. *)
Example expandPID_marker_alone : expandPID "4242" "$$" = inl NullDeref.
Proof. vm_compute. reflexivity. Qed.

Example expandPID_marker_first : expandPID "4242" "$$ a" = inl BufferOverrun.
Proof. vm_compute. reflexivity. Qed.

Example expandPID_lone_dollar :
  expandPID "4242" "echo a$b $$" = inr "echo a4242".
Proof. vm_compute. reflexivity. Qed.

(* ===================================================================== *)
(** * Statements that leave the job table alone                           *)
(* ===================================================================== *)

Lemma keeps_ret {A} (a : A) : keeps_procs (ret a).
Proof. intros w. reflexivity. Qed.

Lemma keeps_bind {A B} (m : M A) (k : A -> M B) :
  keeps_procs m -> (forall a, keeps_procs (k a)) -> keeps_procs (bind m k).
Proof.
  intros Hm Hk w. unfold bind. specialize (Hm w).
  destruct (m w) as [a w'|w'|why w']; simpl in *; try assumption.
  now rewrite Hk.
Qed.

Lemma keeps_call (m : M unit) : keeps_procs m -> keeps_procs (call m).
Proof.
  intros Hm w. unfold call. specialize (Hm w).
  destruct (m w); simpl in *; assumption.
Qed.

Lemma keeps_emit (e : event) : keeps_procs (emit e).
Proof. intros w. reflexivity. Qed.

Lemma keeps_return {A} : keeps_procs (@return_ A).
Proof. intros w. reflexivity. Qed.

Lemma keeps_stop {A} (why : stop_reason) : keeps_procs (@stop A why).
Proof. intros w. reflexivity. Qed.

Lemma keeps_get_processes : keeps_procs get_processes.
Proof. intros w. reflexivity. Qed.

Lemma keeps_load_backgroundPid (i : Z) : keeps_procs (load_backgroundPid i).
Proof.
  intros w. unfold load_backgroundPid, bind, get_processes.
  destruct (i <? 0); [reflexivity|].
  destruct (backgroundPids (procs w) !! Z.to_nat i); reflexivity.
Qed.

Lemma keeps_for_loop (body : Z -> M unit) (count : nat) :
  (forall i, keeps_procs (body i)) ->
  forall first, keeps_procs (for_loop first count body).
Proof.
  intros Hbody. induction count as [|n IH]; intros first; simpl.
  - apply keeps_ret.
  - apply keeps_bind; [apply Hbody | intros _; apply IH].
Qed.

Create HintDb keeps.
#[local] Hint Resolve keeps_ret keeps_call keeps_emit keeps_return keeps_stop
  keeps_get_processes keeps_load_backgroundPid : keeps.

Ltac keeps_step :=
  match goal with
  | |- keeps_procs (bind _ _) => apply keeps_bind; [|intros ?]
  | |- keeps_procs (for_loop _ _ _) => apply keeps_for_loop; intros ?
  | |- keeps_procs (if ?b then _ else _) => destruct b
  | |- keeps_procs (match ?x with _ => _ end) => destruct x
  | |- keeps_procs (call _) => apply keeps_call
  | |- keeps_procs _ => solve [auto with keeps]
  end.

Lemma keeps_exitShell : keeps_procs exitShell.
Proof. unfold exitShell, sys_kill. repeat keeps_step. Qed.

Lemma keeps_cdShell (os : os_model) (input : struct_command) :
  keeps_procs (cdShell os input).
Proof. unfold cdShell, sys_chdir, printf. repeat keeps_step. Qed.

Lemma keeps_statusShell : keeps_procs statusShell.
Proof. unfold statusShell, printf. repeat keeps_step. Qed.

(* ===================================================================== *)
(** * C7: the built-ins and the stored status                             *)
(* ===================================================================== *)

(** C7.  Whatever the job table holds, running [exit], [cd] (with any
    arguments, whether or not the directory change succeeds) or [status],
    called directly or reached through the dispatch of [parseInput], leaves
    the whole [struct processes] as it was, so neither [status] nor [signal]
    changes; [cd] and [status] hand 0 back to the loop. *)
Theorem builtins_leave_status
    (os : os_model) (args : list string) (i o : option string) (amp : Z)
    (w : world) :
  (procs (world_of (exitShell w)) = procs w
   /\ procs (world_of (cdShell os (built "cd" args i o amp) w)) = procs w
   /\ procs (world_of (statusShell w)) = procs w)
  /\ (procs (world_of (dispatch os (built "exit" args i o amp) w)) = procs w
      /\ procs (world_of (dispatch os (built "cd" args i o amp) w)) = procs w
      /\ procs (world_of (dispatch os (built "status" args i o amp) w)) = procs w)
  /\ (exists w', dispatch os (built "cd" args i o amp) w = Next 0 w'
                 /\ status (procs w') = status (procs w)
                 /\ signal (procs w') = signal (procs w))
  /\ (exists w', dispatch os (built "status" args i o amp) w = Next 0 w'
                 /\ status (procs w') = status (procs w)
                 /\ signal (procs w') = signal (procs w)).
Proof.
  assert (Hexit : keeps_procs (dispatch os (built "exit" args i o amp))).
  { unfold dispatch, built. cbn [command String.eqb Ascii.eqb Bool.eqb].
    apply keeps_bind; [apply keeps_exitShell | intros _; apply keeps_ret]. }
  assert (Hcd : keeps_procs (dispatch os (built "cd" args i o amp))).
  { unfold dispatch, built. cbn [command String.eqb Ascii.eqb Bool.eqb].
    apply keeps_bind; [apply keeps_cdShell | intros _; apply keeps_ret]. }
  assert (Hst : keeps_procs (dispatch os (built "status" args i o amp))).
  { unfold dispatch, built. cbn [command String.eqb Ascii.eqb Bool.eqb].
    apply keeps_bind; [apply keeps_statusShell | intros _; apply keeps_ret]. }
  split; [|split; [|split]].
  - split; [apply keeps_exitShell|].
    split; [apply keeps_cdShell | apply keeps_statusShell].
  - split; [apply Hexit | split; [apply Hcd | apply Hst]].
  - unfold dispatch, built. cbn [command String.eqb Ascii.eqb Bool.eqb].
    unfold cdShell, call, bind, sys_chdir, printf, emit, ret.
    cbn [arguments]. destruct args as [|path args']; cbn.
    + eexists; repeat split; reflexivity.
    + destruct (os_chdir os (Some path) =? -1);
        eexists; repeat split; reflexivity.
  - unfold dispatch, built. cbn [command String.eqb Ascii.eqb Bool.eqb].
    unfold statusShell, call, bind, get_processes, printf, emit, ret.
    destruct (status (procs w) =? 0); [eexists; repeat split; reflexivity|].
    destruct (status (procs w) =? 1); eexists; repeat split; reflexivity.
Qed.

(* ===================================================================== *)
(** * C10: the suspend-signal handler                                     *)
(* ===================================================================== *)

(** The flag only ever holds 0 or 1: [main] stores 0 and the handler, the
    only other writer, stores 0 or 1. *)
Lemma handle_SIGTSTP_flag_range (signo : Z) (w : world) :
  exists w', handle_SIGTSTP signo w = Next tt w'
             /\ (foreground w' = 0 \/ foreground w' = 1).
Proof.
  unfold handle_SIGTSTP, call, bind, get_foreground, sys_write, emit,
    set_foreground.
  destruct (foreground w =? 0); eexists; split; try reflexivity; simpl; auto.
Qed.

(** C10.  For either value of the flag, the handler run twice gives the
    flag its first value back; each run writes one message to standard
    output, [entering] or [exiting], and changes nothing but the flag: the
    job table is as before and the trace grows by that single write. *)
Theorem handle_SIGTSTP_involution (signo : Z) (w : world) :
  foreground w = 0 \/ foreground w = 1 ->
  exists m1 m2,
    let w1 := {| procs := procs w; foreground := 1 - foreground w;
                 trace := trace w ++ [Write STDOUT_FILENO m1] |} in
    let w2 := {| procs := procs w; foreground := foreground w;
                 trace := trace w1 ++ [Write STDOUT_FILENO m2] |} in
    handle_SIGTSTP signo w = Next tt w1
    /\ handle_SIGTSTP signo w1 = Next tt w2
    /\ (m1 = entering \/ m1 = exiting)
    /\ (m2 = entering \/ m2 = exiting).
Proof.
  intros [H|H].
  - exists entering, exiting.
    unfold handle_SIGTSTP, call, bind, get_foreground, sys_write, emit,
      set_foreground.
    rewrite H. cbn. repeat split; auto.
  - exists exiting, entering.
    unfold handle_SIGTSTP, call, bind, get_foreground, sys_write, emit,
      set_foreground.
    rewrite H. cbn. repeat split; auto.
Qed.

(** The handler run twice on a shell at its prompt with the mode off. *)
Lemma handle_SIGTSTP_involution_witness :
  (foreground (at_prompt two_jobs 0) = 0 \/ foreground (at_prompt two_jobs 0) = 1)
  /\ exists m1 m2,
       let w := at_prompt two_jobs 0 in
       let w1 := {| procs := procs w; foreground := 1 - foreground w;
                    trace := trace w ++ [Write STDOUT_FILENO m1] |} in
       let w2 := {| procs := procs w; foreground := foreground w;
                    trace := trace w1 ++ [Write STDOUT_FILENO m2] |} in
       handle_SIGTSTP 20 w = Next tt w1
       /\ handle_SIGTSTP 20 w1 = Next tt w2
       /\ (m1 = entering \/ m1 = exiting)
       /\ (m2 = entering \/ m2 = exiting).
Proof.
  split.
  - left. reflexivity.
  - apply (handle_SIGTSTP_involution 20 (at_prompt two_jobs 0)).
    left. reflexivity.
Defined.

(* ===================================================================== *)
(** * Loops over the PID array                                            *)
(* ===================================================================== *)

Lemma tracked_in_range (p : struct_processes) :
  table_ok p ->
  (0 + Z.to_nat (pidCount p) <= length (backgroundPids p))%nat.
Proof. unfold table_ok. lia. Qed.

Lemma load_backgroundPid_slot (k : nat) (pid : Z) (w : world) :
  backgroundPids (procs w) !! k = Some pid ->
  load_backgroundPid (Z.of_nat k) w = Next pid w.
Proof.
  intros H. unfold load_backgroundPid, bind, get_processes.
  destruct (Z.ltb_spec (Z.of_nat k) 0) as [Hneg|_]; [lia|].
  now rewrite Nat2Z.id, H.
Qed.

(** A loop whose body reads slot [i] and then runs a step that always
    completes and leaves the array alone visits the slots in order. *)
Lemma for_loop_over_pids (step : Z -> M unit) (g : Z -> world -> world) :
  (forall pid w, step pid w = Next tt (g pid w)) ->
  (forall pid w, backgroundPids (procs (g pid w)) = backgroundPids (procs w)) ->
  forall (n k : nat) (w : world),
    (k + n <= length (backgroundPids (procs w)))%nat ->
    for_loop (Z.of_nat k) n (fun i => pid <- load_backgroundPid i ;; step pid) w
    = Next tt (fold_left (fun w pid => g pid w)
                 (take n (drop k (backgroundPids (procs w)))) w).
Proof.
  intros Hstep Harr. induction n as [|n IH]; intros k w Hle.
  - reflexivity.
  - destruct (lookup_lt_is_Some_2 (backgroundPids (procs w)) k) as [pid Hpid];
      [lia|].
    rewrite (drop_S _ _ _ Hpid). cbn [take fold_left for_loop].
    unfold bind. rewrite (load_backgroundPid_slot _ _ _ Hpid), Hstep.
    replace (Z.of_nat k + 1) with (Z.of_nat (S k)) by lia.
    rewrite IH by (rewrite Harr; lia).
    now rewrite Harr.
Qed.

Lemma fold_kills (pids : list Z) (w : world) :
  fold_left (fun w pid => logged w [Kill pid SIGKILL]) pids w
  = logged w (kills pids).
Proof.
  revert w. induction pids as [|pid pids IH]; intros w; cbn [fold_left].
  - unfold logged, kills. cbn. rewrite app_nil_r. now destruct w.
  - rewrite IH. unfold logged, kills. cbn. now rewrite <- app_assoc.
Qed.

(** [exitShell] on a sound table: one kill per tracked PID, nothing else. *)
Lemma exitShell_kills (w : world) :
  table_ok (procs w) ->
  exitShell w = Next tt (logged w (kills (tracked (procs w)))).
Proof.
  intros Hok. unfold exitShell, call.
  unfold bind at 1. unfold get_processes at 1. unfold bind at 1.
  change 0 with (Z.of_nat 0).
  rewrite (for_loop_over_pids (fun pid => sys_kill pid SIGKILL)
             (fun pid w => logged w [Kill pid SIGKILL]));
    [| reflexivity | reflexivity | now apply tracked_in_range].
  rewrite fold_kills. reflexivity.
Qed.

(** Run the straight-line part of a statement. *)
Ltac run_statements :=
  cbv beta iota zeta delta
    [bind ret call return_ stop emit printf get_processes put_processes
     get_foreground set_foreground set_status set_signal set_pidCount
     sys_open sys_fork sys_dup2 sys_execvp sys_chdir sys_waitpid
     sys_waitpid_WNOHANG sys_kill sys_close sys_fcntl_cloexec sigaction
     sys_write procs foreground trace backgroundPids pidCount status signal
     WIFSIGNALED WTERMSIG WEXITSTATUS fst snd].

Lemma reap_step (os : os_model) (pid : Z) (w : world) :
  (r <- sys_waitpid_WNOHANG os pid ;;
   match r with
   | Some backgroundStatus =>
       if WIFSIGNALED backgroundStatus then
         printf ("Process " +:+ decimal pid +:+ " terminated with signal "
                 +:+ decimal (WTERMSIG backgroundStatus) +:+ nl) ;;
         set_signal (WTERMSIG backgroundStatus) ;;
         set_status 2
       else
         set_status (WEXITSTATUS backgroundStatus) ;;
         printf ("Process " +:+ decimal pid +:+ " ended with status "
                 +:+ decimal (WEXITSTATUS backgroundStatus) +:+ nl)
   | None => ret tt
   end) w
  = Next tt (reap_one os pid w).
Proof.
  unfold reap_one, reaper_status, reaper_report. run_statements.
  destruct w as [p fg tr].
  destruct (os_waitpid_WNOHANG os pid) as [[code|sig]|];
    try rewrite <- app_assoc; reflexivity.
Qed.

Lemma reaper_status_array (os : os_model) (p : struct_processes) (pid : Z) :
  backgroundPids (reaper_status os p pid) = backgroundPids p
  /\ pidCount (reaper_status os p pid) = pidCount p.
Proof.
  unfold reaper_status.
  destruct (os_waitpid_WNOHANG os pid) as [[code|sig]|]; split; reflexivity.
Qed.

Lemma fold_reaper_status_array (os : os_model) (pids : list Z)
    (p : struct_processes) :
  backgroundPids (fold_left (reaper_status os) pids p) = backgroundPids p
  /\ pidCount (fold_left (reaper_status os) pids p) = pidCount p.
Proof.
  revert p. induction pids as [|pid pids IH]; intros p; cbn [fold_left].
  - split; reflexivity.
  - destruct (IH (reaper_status os p pid)) as [-> ->].
    apply reaper_status_array.
Qed.

Lemma fold_reap_one (os : os_model) (pids : list Z) (w : world) :
  fold_left (fun w pid => reap_one os pid w) pids w
  = {| procs := fold_left (reaper_status os) pids (procs w);
       foreground := foreground w;
       trace := trace w ++ flat_map (reaper_report os) pids |}.
Proof.
  revert w. induction pids as [|pid pids IH]; intros w; cbn [fold_left flat_map].
  - rewrite app_nil_r. now destruct w.
  - rewrite IH. unfold reap_one. cbn [procs foreground trace].
    now rewrite <- app_assoc.
Qed.

(** The sweep on a sound table: every tracked PID is polled once, in
    order. *)
Lemma reap_sweep (os : os_model) (w : world) :
  table_ok (procs w) ->
  reap os w
  = Next tt {| procs := fold_left (reaper_status os) (tracked (procs w)) (procs w);
               foreground := foreground w;
               trace := trace w ++ flat_map (reaper_report os) (tracked (procs w)) |}.
Proof.
  intros Hok. unfold reap.
  unfold bind at 1. unfold get_processes at 1.
  change 0 with (Z.of_nat 0).
  pose proof (for_loop_over_pids _ (reap_one os) (reap_step os)) as Hloop.
  rewrite Hloop.
  - now rewrite fold_reap_one.
  - intros pid w0. apply reaper_status_array.
  - now apply tracked_in_range.
Qed.

Lemma kills_never_wait (pids : list Z) :
  forallb (fun e => negb (is_blocking_wait e)) (kills pids) = true.
Proof. induction pids as [|pid pids IH]; [reflexivity | exact IH]. Qed.

Lemma reaper_never_blocks (os : os_model) (pids : list Z) :
  forallb (fun e => negb (is_blocking_wait e))
    (flat_map (reaper_report os) pids) = true.
Proof.
  induction pids as [|pid pids IH]; [reflexivity|].
  cbn [flat_map]. rewrite forallb_app, IH, andb_true_r.
  unfold reaper_report.
  destruct (os_waitpid_WNOHANG os pid) as [[code|sig]|]; reflexivity.
Qed.

(* ===================================================================== *)
(** * C9: exit                                                            *)
(* ===================================================================== *)

Lemma parseInput_exit (os : os_model) (w : world) :
  parseInput os (Some "exit") w = dispatch os (built "exit" [] None None 0) w.
Proof.
  unfold parseInput.
  change (strtok "exit" " ")
    with {| tok := Some "exit"; reads := "exit"; saved := EmptyString |}.
  cbn [tok reads]. change (String.eqb "exit" nl) with false.
  change (first_char_eq "exit" "#") with false. cbn match.
  rewrite expandPID_no_marker by reflexivity.
  reflexivity.
Qed.

Lemma dispatch_exit (os : os_model) (args : list string)
    (i o : option string) (amp : Z) (w : world) :
  table_ok (procs w) ->
  dispatch os (built "exit" args i o amp) w
  = Next 1 (logged w (kills (tracked (procs w)))).
Proof.
  intros Hok. unfold dispatch, built.
  cbn [command String.eqb Ascii.eqb Bool.eqb].
  unfold bind. now rewrite exitShell_kills.
Qed.

Lemma shell_iteration_exit (os : os_model) (w : world) :
  table_ok (procs w) ->
  shell_iteration os ("exit" +:+ nl) w
  = Next 1 {| procs := fold_left (reaper_status os) (tracked (procs w)) (procs w);
              foreground := foreground w;
              trace := trace w ++ Printf ": " :: kills (tracked (procs w))
                         ++ flat_map (reaper_report os) (tracked (procs w)) |}.
Proof.
  intros Hok. unfold shell_iteration. unfold bind at 1. unfold printf, emit at 1.
  change (strtok ("exit" +:+ nl) nl)
    with {| tok := Some "exit"; reads := "exit"; saved := EmptyString |}.
  cbn [tok]. unfold bind at 1.
  rewrite parseInput_exit, dispatch_exit by exact Hok.
  unfold bind. rewrite reap_sweep by exact Hok.
  unfold logged, ret. cbn [procs foreground trace].
  now rewrite <- !app_assoc.
Qed.

(** C9.  On a job table whose counter lies within the array, the [exit]
    built-in sends SIGKILL to every tracked PID, in order, and does nothing
    else before 1 is handed to the loop; the pass of the loop that read
    [exit] then only polls without blocking, and the loop ends without
    reading further input. *)
Theorem exit_kills_every_tracked_pid
    (os : os_model) (w : world) (more : list (os_model * string)) :
  table_ok (procs w) ->
  (forall args i o amp,
      dispatch os (built "exit" args i o amp) w
      = Next 1 (logged w (kills (tracked (procs w)))))
  /\ parseInput os (Some "exit") w
     = Next 1 (logged w (kills (tracked (procs w))))
  /\ exists w',
       shell_iteration os ("exit" +:+ nl) w = Next 1 w'
       /\ shell_loop ((os, "exit" +:+ nl) :: more) w = Next tt w'
       /\ trace w'
          = trace w ++ Printf ": " :: kills (tracked (procs w))
                    ++ flat_map (reaper_report os) (tracked (procs w))
       /\ forallb (fun e => negb (is_blocking_wait e))
            (Printf ": " :: kills (tracked (procs w))
               ++ flat_map (reaper_report os) (tracked (procs w))) = true.
Proof.
  intros Hok.
  split; [intros; now apply dispatch_exit|].
  split; [rewrite parseInput_exit; now apply dispatch_exit|].
  eexists. split; [now apply shell_iteration_exit|].
  split; [|split].
  - cbn [shell_loop]. unfold bind.
    now rewrite shell_iteration_exit by exact Hok.
  - reflexivity.
  - cbn [forallb is_blocking_wait negb andb].
    now rewrite forallb_app, kills_never_wait, reaper_never_blocks.
Qed.

(** [exit] typed while PIDs 41 and 42 are tracked. *)
Lemma exit_kills_every_tracked_pid_witness :
  table_ok (procs (at_prompt two_jobs 0))
  /\ parseInput (has_ended 42 (Exited 0)) (Some "exit") (at_prompt two_jobs 0)
     = Next 1 (logged (at_prompt two_jobs 0) [Kill 41 SIGKILL; Kill 42 SIGKILL]).
Proof.
  assert (Hok : table_ok (procs (at_prompt two_jobs 0))).
  { unfold table_ok. cbn. lia. }
  split; [exact Hok|].
  exact (proj1 (proj2 (exit_kills_every_tracked_pid
                         (has_ended 42 (Exited 0)) (at_prompt two_jobs 0) []
                         Hok))).
Defined.

(* ===================================================================== *)
(** * C6: the PID list and the sweep                                      *)
(* ===================================================================== *)

(** C6 (the claim fails).  The table tracks 41 and 42 and the sweep's
    non-blocking check finds 42 ended with status 0: the sweep reports it and
    stores the status, yet 42 is still tracked afterwards; and when a later
    background child is given the PID 42 again, the table tracks it twice. *)
Lemma reaped_pid_stays_tracked :
  exists w' w'',
    reap (has_ended 42 (Exited 0)) (at_prompt two_jobs 0) = Next tt w'
    /\ In (Printf ("Process 42 ended with status 0" +:+ nl)) (trace w')
    /\ tracked (procs w') = [41; 42]
    /\ otherCommands (fork_gives 42) (built "sleep" ["5"] None None 1) w'
       = Next tt w''
    /\ tracked (procs w'') = [41; 42; 42]
    /\ ~ NoDup (tracked (procs w'')).
Proof.
  eexists. eexists.
  split; [vm_compute; reflexivity|].
  split; [vm_compute; auto|].
  split; [vm_compute; reflexivity|].
  split; [vm_compute; reflexivity|].
  split; [vm_compute; reflexivity|].
  vm_compute. intros H.
  apply NoDup_cons in H as [_ H]. apply NoDup_cons in H as [H _].
  apply H. left.
Qed.

(** The tests of lines 206 and 219, for a command that gets past them. *)
Lemma redirects_open_tests (os : os_model) (name : string)
    (args : list string) (i o : option string) (amp : Z) :
  redirects_open os (Command name args i o amp) ->
  match i with
  | Some path => (os_open os path O_RDONLY =? -1) = false
  | None =>
      match o with
      | Some _ => (indet_sourceFD os =? -1) = false
      | None => True
      end
  end.
Proof.
  intros [Hin Hjunk]. cbn [inputFile outputFile] in Hin, Hjunk.
  destruct i as [ipath|].
  - apply Z.eqb_neq. now apply Hin.
  - destruct o as [opath|]; [|exact I].
    apply Z.eqb_neq. now apply Hjunk.
Qed.

(** A background launch, seen from the parent, for a command that gets
    past its two opens: the new PID goes into the first free slot, whatever
    the opens of [/dev/null/] answer. *)
Lemma otherCommands_background (os : os_model) (cmd : struct_command)
    (w : world) :
  ampersand cmd <> 0 ->
  0 < os_fork os ->
  redirects_open os cmd ->
  0 <= pidCount (procs w) < Z.of_nat (length (backgroundPids (procs w))) ->
  exists w',
    otherCommands os cmd w = Next tt w'
    /\ tracked (procs w') = tracked (procs w) ++ [os_fork os]
    /\ status (procs w') = status (procs w)
    /\ signal (procs w') = signal (procs w).
Proof.
  intros Hamp Hpid Hopen Hroom.
  destruct w as [[arr cnt st sg] fg tr].
  destruct cmd as [name args i o amp].
  cbn [procs backgroundPids pidCount ampersand] in *.
  pose proof (redirects_open_tests _ _ _ _ _ _ Hopen) as Htest.
  assert (Ha : (amp =? 0) = false) by now apply Z.eqb_neq.
  assert (Hn : (os_fork os <? 0) = false) by now apply Z.ltb_ge; lia.
  assert (Hz : (os_fork os =? 0) = false) by now apply Z.eqb_neq; lia.
  assert (Hlo : (0 <=? cnt) = true) by now apply Z.leb_le.
  assert (Hhi : (cnt <? Z.of_nat (length arr)) = true) by now apply Z.ltb_lt.
  unfold otherCommands, store_backgroundPid.
  cbn [inputFile outputFile ampersand command arguments].
  rewrite Ha.
  destruct i as [ipath|], o as [opath|], (amp =? 1); run_statements;
    repeat (rewrite Htest; cbn [Z.eqb Pos.eqb]); cbn [Z.eqb Pos.eqb];
    rewrite ?Hn, ?Hz, ?Hlo, ?Hhi;
    cbn [andb]; (eexists; split; [reflexivity|]);
    unfold tracked; cbn [procs backgroundPids pidCount status signal];
    (split; [|split; reflexivity]);
    replace (Z.to_nat (cnt + 1)) with (S (Z.to_nat cnt)) by lia;
    (rewrite (take_S_r _ _ (os_fork os));
     [ now rewrite take_insert_ge by lia
     | apply list_lookup_insert_eq; lia ]).
Qed.

(** C6 (as amended).  On a job table whose counter lies within the array,
    the sweep polls every tracked PID once, in insertion order, without
    blocking; for each PID found ended it prints the report of
    [reaper_report] and stores the status of [reaper_status]; it removes
    nothing: array, counter and tracked PIDs are as before.  A background
    launch that gets past the opens of its own redirects and finds a free
    slot adds its PID after the tracked ones and leaves [status] and
    [signal] alone, whatever the opens of [/dev/null/] answer. *)
Theorem reap_reports_and_keeps_pids (os : os_model) (w : world) :
  table_ok (procs w) ->
  (exists w',
      reap os w = Next tt w'
      /\ tracked (procs w') = tracked (procs w)
      /\ backgroundPids (procs w') = backgroundPids (procs w)
      /\ pidCount (procs w') = pidCount (procs w)
      /\ procs w' = fold_left (reaper_status os) (tracked (procs w)) (procs w)
      /\ trace w' = trace w ++ flat_map (reaper_report os) (tracked (procs w))
      /\ forallb (fun e => negb (is_blocking_wait e))
           (flat_map (reaper_report os) (tracked (procs w))) = true)
  /\ (forall cmd,
         ampersand cmd <> 0 ->
         0 < os_fork os ->
         redirects_open os cmd ->
         pidCount (procs w) < Z.of_nat (length (backgroundPids (procs w))) ->
         exists w',
           otherCommands os cmd w = Next tt w'
           /\ tracked (procs w') = tracked (procs w) ++ [os_fork os]
           /\ status (procs w') = status (procs w)
           /\ signal (procs w') = signal (procs w)).
Proof.
  intros Hok. split.
  - eexists. split; [now apply reap_sweep|].
    cbn [procs trace].
    destruct (fold_reaper_status_array os (tracked (procs w)) (procs w))
      as [Harr Hcnt].
    split; [unfold tracked at 1; now rewrite Harr, Hcnt|].
    split; [exact Harr|]. split; [exact Hcnt|].
    split; [reflexivity|]. split; [reflexivity|].
    apply reaper_never_blocks.
  - intros cmd Hamp Hpid Hopen Hroom.
    apply otherCommands_background; try assumption.
    unfold table_ok in Hok. lia.
Qed.

(** The sweep over PIDs 41 and 42 when 42 was killed by signal 15; and
    the launch of [sleep 5 &] on a system where [/dev/null/] cannot be
    opened. *)
Lemma reap_reports_and_keeps_pids_witness :
  table_ok (procs (at_prompt two_jobs 0))
  /\ (exists w',
         reap (has_ended 42 (Signaled 15)) (at_prompt two_jobs 0) = Next tt w'
         /\ tracked (procs w') = [41; 42]
         /\ status (procs w') = 2 /\ signal (procs w') = 15
         /\ trace w'
            = [Waitpid 41 WNOHANG None;
               Waitpid 42 WNOHANG (Some (Signaled 15));
               Printf ("Process 42 terminated with signal 15" +:+ nl)])
  /\ os_open (cannot_open "/dev/null/") "/dev/null/" O_RDONLY = -1
  /\ exists w',
       otherCommands (cannot_open "/dev/null/")
         (built "sleep" ["5"] None None 1) (at_prompt two_jobs 0)
       = Next tt w'
       /\ tracked (procs w') = [41; 42; 1000].
Proof.
  assert (Hok : table_ok (procs (at_prompt two_jobs 0))).
  { unfold table_ok. cbn. lia. }
  split; [exact Hok|]. split.
  - destruct (proj1 (reap_reports_and_keeps_pids
                       (has_ended 42 (Signaled 15)) (at_prompt two_jobs 0) Hok))
      as (w' & Hrun & Htracked & _ & _ & Hprocs & Htrace & _).
    exists w'. split; [exact Hrun|]. split; [exact Htracked|].
    rewrite Hprocs, Htrace. repeat split; reflexivity.
  - split; [reflexivity|].
    assert (Hopen : redirects_open (cannot_open "/dev/null/")
                      (built "sleep" ["5"] None None 1)).
    { split; [intros path H; discriminate H | intros _ H; now contradiction H]. }
    destruct (proj2 (reap_reports_and_keeps_pids
                       (cannot_open "/dev/null/") (at_prompt two_jobs 0) Hok)
                (built "sleep" ["5"] None None 1)
                ltac:(discriminate) eq_refl Hopen eq_refl)
      as (w' & Hrun & Htracked & _).
    exists w'. split; [exact Hrun | exact Htracked].
Defined.

(* ===================================================================== *)
(** * C5: the ampersand                                                   *)
(* ===================================================================== *)


Lemma with_arguments_nil (c : struct_command) : with_arguments c [] = c.
Proof. unfold with_arguments. rewrite app_nil_r. now destruct c. Qed.

Lemma with_arguments_app (c : struct_command) (l1 l2 : list string) :
  with_arguments (with_arguments c l1) l2 = with_arguments c (l1 ++ l2).
Proof. unfold with_arguments. cbn. now rewrite app_assoc. Qed.

(** Ordinary tokens are appended, one by one, while the array has room. *)
Lemma tokenize_loop_ordinary (fg : Z) (args rest : list string) :
  Forall ordinary args ->
  forall c,
    Z.of_nat (length (arguments c) + length args) <= 512 ->
    tokenize_loop fg (args ++ rest) c
    = tokenize_loop fg rest (with_arguments c args).
Proof.
  induction 1 as [|token args [Hlt [Hgt Hamp]] _ IH]; intros c Hroom.
  - now rewrite with_arguments_nil.
  - cbn [app tokenize_loop].
    apply String.eqb_neq in Hlt, Hgt, Hamp. rewrite Hlt, Hgt, Hamp.
    cbn [length] in Hroom. cbv zeta.
    destruct (Z.ltb_spec (Z.of_nat (length (arguments c))) 512) as [_|Hfull];
      [|lia].
    rewrite IH.
    + change (tokenize_loop fg rest
                (with_arguments (with_arguments c [token]) args)
              = tokenize_loop fg rest (with_arguments c (token :: args))).
      now rewrite with_arguments_app.
    + cbn [arguments]. rewrite length_app. cbn [length]. lia.
Qed.

(** The ordinary token that finds the array full is stored outside it. *)
Lemma tokenize_loop_overflow (fg : Z) (args rest : list string) :
  Forall ordinary args ->
  forall c,
    Z.of_nat (length (arguments c)) <= 512 ->
    512 < Z.of_nat (length (arguments c) + length args) ->
    tokenize_loop fg (args ++ rest) c = inl OutOfBounds.
Proof.
  induction 1 as [|token args [Hlt [Hgt Hamp]] _ IH]; intros c Hfits Hover.
  - cbn [length] in Hover. lia.
  - cbn [app tokenize_loop].
    apply String.eqb_neq in Hlt, Hgt, Hamp. rewrite Hlt, Hgt, Hamp.
    cbn [length] in Hover. cbv zeta.
    destruct (Z.ltb_spec (Z.of_nat (length (arguments c))) 512) as [Hroom|_];
      [|reflexivity].
    apply IH; cbn [arguments]; rewrite length_app; cbn [length]; lia.
Qed.

(** What the loop can have done to the record: the background flag is
    either untouched or set by a final [&] with the mode off, and the
    arguments grew by tokens other than [&]. *)
Lemma tokenize_loop_effect (fg : Z) (n : nat) :
  forall (rest : list string) (c0 c : struct_command),
    (length rest <= n)%nat ->
    tokenize_loop fg rest c0 = inr c ->
    (ampersand c = ampersand c0
     \/ (ampersand c = 1 /\ fg = 0 /\ last rest = Some "&"))
    /\ (fg <> 0 -> ampersand c = ampersand c0)
    /\ command c = command c0
    /\ exists added, arguments c = arguments c0 ++ added
                     /\ Forall (fun a => a <> "&") added.
Proof.
  induction n as [|n IH]; intros rest c0 c Hlen Hrun.
  - destruct rest; [|cbn in Hlen; lia].
    cbn in Hrun. injection Hrun as <-.
    repeat split; auto. exists []. now rewrite app_nil_r.
  - destruct rest as [|token rest]; cbn [tokenize_loop] in Hrun.
    { injection Hrun as <-.
      repeat split; auto. exists []. now rewrite app_nil_r. }
    cbn [length] in Hlen.
    destruct (String.eqb_spec token "<") as [->|Hlt].
    { destruct rest as [|file rest]; [discriminate|].
      cbn [length] in Hlen.
      apply IH in Hrun as (Hamp & Hfg & Hcmd & added & Hargs & Hadded); [|lia].
      cbn [ampersand command arguments] in *.
      split; [|repeat split; eauto].
      destruct Hamp as [?|(? & ? & Hlast)]; [now left|right].
      repeat split; auto. rewrite !last_cons, Hlast. reflexivity. }
    destruct (String.eqb_spec token ">") as [->|Hgt].
    { destruct rest as [|file rest]; [discriminate|].
      cbn [length] in Hlen.
      apply IH in Hrun as (Hamp & Hfg & Hcmd & added & Hargs & Hadded); [|lia].
      cbn [ampersand command arguments] in *.
      split; [|repeat split; eauto].
      destruct Hamp as [?|(? & ? & Hlast)]; [now left|right].
      repeat split; auto. rewrite !last_cons, Hlast. reflexivity. }
    destruct (String.eqb_spec token "&") as [->|Hamp'].
    { destruct rest as [|next rest].
      - injection Hrun as <-.
        destruct (Z.eqb_spec fg 0) as [->|Hne]; cbn [ampersand command arguments].
        + split; [right; repeat split; auto|].
          split; [intros []; reflexivity|]. split; [reflexivity|].
          exists []. now rewrite app_nil_r.
        + repeat split; auto. exists []. now rewrite app_nil_r.
      - apply IH in Hrun as (Hamp & Hfg & Hcmd & added & Hargs & Hadded); [|lia].
        split; [|repeat split; eauto].
        destruct Hamp as [?|(? & ? & Hlast)]; [now left|right].
        repeat split; auto. }
    cbv zeta in Hrun.
    destruct (Z.of_nat (length (arguments c0)) <? 512); [|discriminate].
    apply IH in Hrun as (Hamp & Hfg & Hcmd & added & Hargs & Hadded); [|lia].
    cbn [ampersand command arguments] in *.
    split.
    { destruct Hamp as [?|(? & ? & Hlast)]; [now left|right].
      repeat split; auto. rewrite last_cons, Hlast. reflexivity. }
    split; [exact Hfg|]. split; [exact Hcmd|].
    exists (token :: added). split.
    + rewrite Hargs, <- app_assoc. reflexivity.
    + constructor; assumption.
Qed.


Lemma with_arguments_built (prog : string) (args : list string) :
  with_arguments (built prog [] None None 0) args = built prog args None None 0.
Proof. reflexivity. Qed.

(** ** Reading a line as items *)

















(* ===================================================================== *)
(** * C8: blank lines and comments                                        *)
(* ===================================================================== *)

(** C8 (the claim fails).  The first non-space content of the line
    [ # note] is [#], yet the shell builds the Command Record of a program
    named [#] and forks for it. *)
Lemma indented_comment_is_dispatched :
  exists c w',
    build_command 0 " # note" = inr c
    /\ command c = "#"
    /\ shell_iteration calm (" # note" +:+ nl) (at_prompt (fresh_heap 0) 0)
       = Next 0 w'
    /\ In (Fork 1000) (trace w').
Proof.
  eexists. eexists.
  split; [vm_compute; reflexivity|].
  split; [reflexivity|].
  split; [vm_compute; reflexivity|].
  cbn. auto.
Qed.

(** The empty line: [strtok] hands [shell] a NULL, which [parseInput]
    passes to [strcpy]. *)
Lemma empty_line_faults (os : os_model) (w : world) :
  shell_iteration os nl w = Stopped (Faulted NullDeref) (logged w [Printf ": "]).
Proof. reflexivity. Qed.

Lemma span_in_only_spaces (line : string) :
  only_spaces line = true -> span_in " " line = (line, EmptyString).
Proof.
  induction line as [|c line IH]; intros H; [reflexivity|].
  cbn [only_spaces] in H. apply andb_prop in H as [Hc Hs].
  cbn [span_in member]. rewrite Hc, (IH Hs). reflexivity.
Qed.

Lemma only_spaces_not_nl (line : string) :
  only_spaces line = true -> String.eqb line nl = false.
Proof.
  destruct line as [|c line]; intros H; [reflexivity|].
  cbn [only_spaces] in H. apply andb_prop in H as [Hc _].
  apply Ascii.eqb_eq in Hc. subst c. reflexivity.
Qed.

Lemma only_spaces_no_newline (line : string) :
  only_spaces line = true -> no_newline line = true.
Proof.
  induction line as [|c line IH]; intros H; [reflexivity|].
  cbn [only_spaces] in H. apply andb_prop in H as [Hc Hs].
  apply Ascii.eqb_eq in Hc. subst c. cbn. now apply IH.
Qed.

Lemma span_out_line (line : string) :
  no_newline line = true -> span_out nl (line +:+ nl) = (line, nl).
Proof.
  induction line as [|c line IH]; intros H; [reflexivity|].
  cbn [no_newline] in H. apply andb_prop in H as [Hc Hs].
  apply negb_true_iff in Hc.
  rewrite append_cons. cbn [span_out member nl]. rewrite Hc. cbn [orb].
  change (String newline EmptyString) with nl. now rewrite (IH Hs).
Qed.

(** What [shell] hands to [parseInput] for a non-empty line. *)
Lemma strtok_line (line : string) :
  no_newline line = true -> line <> EmptyString ->
  tok (strtok (line +:+ nl) nl) = Some line.
Proof.
  intros H Hne. destruct line as [|c line]; [contradiction|].
  pose proof (span_out_line _ H) as Hspan.
  cbn [no_newline] in H. apply andb_prop in H as [Hc _].
  apply negb_true_iff in Hc.
  unfold strtok. rewrite append_cons. cbn [span_in member nl].
  rewrite Hc. cbn [orb]. rewrite <- append_cons.
  change (String newline EmptyString) with nl. rewrite Hspan. reflexivity.
Qed.

Lemma parseInput_comment (os : os_model) (line : string) (w : world) :
  starts_with line "#" = true -> parseInput os (Some line) w = Next 0 w.
Proof.
  intros H. destruct line as [|c line]; [discriminate|].
  cbn [starts_with] in H. rewrite andb_true_r in H.
  apply Ascii.eqb_eq in H. subst c.
  unfold parseInput, strtok. cbn [span_in member Ascii.eqb Bool.eqb orb].
  cbn [span_out member Ascii.eqb Bool.eqb orb].
  destruct (span_out " " line) as [run rest]. cbn [tok reads].
  reflexivity.
Qed.

Lemma parseInput_only_spaces (os : os_model) (line : string) (w : world) :
  only_spaces line = true -> parseInput os (Some line) w = Next 0 w.
Proof.
  intros H. unfold parseInput, strtok.
  rewrite (span_in_only_spaces _ H). cbn [tok reads].
  now rewrite (only_spaces_not_nl _ H).
Qed.

Lemma reap_nothing_tracked (os : os_model) (w : world) :
  pidCount (procs w) = 0 -> reap os w = Next tt w.
Proof.
  intros H. unfold reap, bind, get_processes. now rewrite H.
Qed.

(** C8 (as amended).  A line whose first character is [#], or that holds
    spaces only, builds no Command Record and dispatches nothing:
    [parseInput] hands 0 back with the memory and the trace untouched, and
    when no background PID is tracked the whole pass of the loop prints the
    prompt and nothing else.  Handed the one-character string of a newline,
    [parseInput] prints one newline and dispatches nothing. *)
Theorem comment_and_blank_lines_are_noops
    (os : os_model) (line : string) (w : world) :
  starts_with line "#" = true \/ only_spaces line = true ->
  parseInput os (Some line) w = Next 0 w
  /\ parseInput os (Some nl) w = Next 0 (logged w [Printf nl])
  /\ (no_newline line = true -> line <> EmptyString ->
      pidCount (procs w) = 0 ->
      shell_iteration os (line +:+ nl) w = Next 0 (logged w [Printf ": "])).
Proof.
  intros Hline.
  assert (Hparse : forall w0, parseInput os (Some line) w0 = Next 0 w0).
  { intros w0. destruct Hline as [H|H];
      [now apply parseInput_comment | now apply parseInput_only_spaces]. }
  split; [apply Hparse|]. split; [reflexivity|].
  intros Hnl Hne Hcount.
  unfold shell_iteration. rewrite (strtok_line _ Hnl Hne).
  unfold bind at 1. unfold printf, emit at 1.
  unfold bind at 1. rewrite Hparse.
  unfold bind. rewrite reap_nothing_tracked by exact Hcount.
  reflexivity.
Qed.

(** The line [# a note] at a prompt with no background job. *)
Lemma comment_and_blank_lines_are_noops_witness :
  (starts_with "# a note" "#" = true \/ only_spaces "# a note" = true)
  /\ parseInput calm (Some "# a note") (at_prompt (fresh_heap 0) 0)
     = Next 0 (at_prompt (fresh_heap 0) 0)
  /\ shell_iteration calm ("# a note" +:+ nl) (at_prompt (fresh_heap 0) 0)
     = Next 0 (logged (at_prompt (fresh_heap 0) 0) [Printf ": "]).
Proof.
  assert (H : starts_with "# a note" "#" = true \/ only_spaces "# a note" = true).
  { left. reflexivity. }
  split; [exact H|].
  destruct (comment_and_blank_lines_are_noops calm "# a note"
              (at_prompt (fresh_heap 0) 0) H) as (Hp & _ & Hs).
  split; [exact Hp|].
  apply Hs; [reflexivity | discriminate | reflexivity].
Defined.

(* ===================================================================== *)
(** * C2: what status reports                                             *)
(* ===================================================================== *)

(** [statusShell] prints one line chosen by the stored status alone. *)
Lemma statusShell_prints (w : world) :
  statusShell w
  = Next tt (logged w
       [Printf (if status (procs w) =? 0 then "exit value 0" +:+ nl
                else if status (procs w) =? 1 then "exit value 1" +:+ nl
                else "terminated by signal " +:+ decimal (signal (procs w))
                     +:+ nl)]).
Proof.
  unfold statusShell, call, bind, get_processes, printf, emit, logged.
  destruct (status (procs w) =? 0); [reflexivity|].
  destruct (status (procs w) =? 1); reflexivity.
Qed.

(** A foreground command without redirects, seen from the parent: the wait
    status is stored as it comes. *)
Lemma otherCommands_foreground (os : os_model) (name : string)
    (args : list string) (w : world) :
  0 < os_fork os ->
  exists w',
    otherCommands os (built name args None None 0) w = Next tt w'
    /\ backgroundPids (procs w') = backgroundPids (procs w)
    /\ pidCount (procs w') = pidCount (procs w)
    /\ match os_waitpid os (os_fork os) with
       | Signaled s => status (procs w') = 2 /\ signal (procs w') = s
       | Exited n => status (procs w') = n /\ signal (procs w') = signal (procs w)
       end.
Proof.
  intros Hpid. destruct w as [[arr cnt st sg] fg tr].
  unfold otherCommands, built.
  cbn [inputFile outputFile ampersand command arguments].
  run_statements. cbn [Z.eqb Pos.eqb].
  destruct (Z.ltb_spec (os_fork os) 0) as [Hneg|_]; [lia|].
  destruct (Z.eqb_spec (os_fork os) 0) as [Hz|_]; [lia|].
  destruct (os_waitpid os (os_fork os)) as [n|s];
    eexists; repeat split; reflexivity.
Qed.

(** The parts of the claim the code meets: [status] after a foreground
    command killed by signal [s], or ended with code 0 or 1. *)
Lemma status_after_foreground (os : os_model) (name : string)
    (args : list string) (w : world) :
  0 < os_fork os ->
  exists w' w'' line,
    otherCommands os (built name args None None 0) w = Next tt w'
    /\ statusShell w' = Next tt w''
    /\ trace w'' = trace w' ++ [Printf line]
    /\ match os_waitpid os (os_fork os) with
       | Signaled s => line = "terminated by signal " +:+ decimal s +:+ nl
       | Exited 0 => line = "exit value 0" +:+ nl
       | Exited 1 => line = "exit value 1" +:+ nl
       | Exited _ =>
           line = "terminated by signal " +:+ decimal (signal (procs w)) +:+ nl
       end.
Proof.
  intros Hpid.
  destruct (otherCommands_foreground os name args w Hpid)
    as (w' & Hrun & _ & _ & Hst).
  exists w'. rewrite statusShell_prints.
  destruct (os_waitpid os (os_fork os)) as [n|s]; destruct Hst as [Hs Hg].
  - rewrite Hs, Hg.
    destruct n as [|[p|p|]|p]; eexists; eexists;
      (split; [exact Hrun|]; split; [reflexivity|]; split; reflexivity).
  - rewrite Hs, Hg. eexists. eexists.
    split; [exact Hrun|]. split; [reflexivity|]. split; reflexivity.
Qed.

(** C2 (the code against the claim).  A foreground command ends normally
    with exit code 2; the [status] entered next prints
    [terminated by signal] followed by whatever the [signal] field held,
    not [exit value 2]. *)
Theorem status_after_exit_code_two (junk : Z) :
  exists w,
    run (fresh_heap junk)
      [(child_ends (Exited 2), "ls nosuchfile" +:+ nl); (calm, "status" +:+ nl)]
    = Next 0 w
    /\ trace w
       = [Sigaction SIGINT SIG_IGN; Sigaction SIGTSTP Handler_SIGTSTP;
          Printf ": "; Fork 1000; Sigaction SIGINT SIG_IGN;
          Sigaction SIGTSTP SIG_IGN; Sigaction SIGTSTP Handler_SIGTSTP;
          Waitpid 1000 WAIT_BLOCK (Some (Exited 2));
          Printf ": ";
          Printf ("terminated by signal " +:+ decimal junk +:+ nl)]
    /\ ~ In (Printf ("exit value 2" +:+ nl)) (trace w).
Proof.
  eexists. split; [vm_compute; reflexivity|].
  split; [vm_compute; reflexivity|].
  cbn [trace In]. intros H.
  repeat (destruct H as [H|H]; [discriminate H|]). exact H.
Qed.

(** Straight after start-up [status] prints [exit value 0]. *)
Lemma status_at_startup (heap : struct_processes) :
  pidCount heap = 0 ->
  exists w,
    run heap [(calm, "status" +:+ nl)] = Next 0 w
    /\ last (trace w) = Some (Printf ("exit value 0" +:+ nl)).
Proof.
  intros H. destruct heap as [arr cnt st sg]. cbn in H. subst cnt.
  eexists. split; vm_compute; reflexivity.
Qed.

(* ===================================================================== *)
(** * C3: an output file that cannot be opened                            *)
(* ===================================================================== *)

(** The sibling path: an input file that cannot be opened is reported,
    status 1 is stored, and nothing is forked. *)
Lemma input_open_failure_is_recovered (os : os_model) (name path : string)
    (args : list string) (o : option string) (amp : Z) (w : world) :
  os_open os path O_RDONLY = -1 ->
  otherCommands os (built name args (Some path) o amp) w
  = Next tt
      {| procs := {| backgroundPids := backgroundPids (procs w);
                     pidCount := pidCount (procs w);
                     status := 1; signal := signal (procs w) |};
         foreground := foreground w;
         trace := trace w ++ [Open path O_RDONLY (-1);
                              Printf ("Cannot open " +:+ path
                                      +:+ " for input." +:+ nl)] |}.
Proof.
  intros H. destruct w as [[arr cnt st sg] fg tr].
  unfold otherCommands, built. cbn [inputFile]. run_statements.
  rewrite H. cbn [Z.eqb Pos.eqb]. now rewrite <- app_assoc.
Qed.

(** Whenever the input file opens and the output file does not, whatever
    else the system answers, the next call after the two opens is the fork. *)
Lemma output_open_failure_unnoticed (os : os_model) (name ipath opath : string)
    (args : list string) (amp : Z) (w : world) :
  os_open os ipath O_RDONLY <> -1 ->
  os_open os opath O_WRONLY_CREAT_TRUNC = -1 ->
  exists events,
    trace (world_of (otherCommands os
                       (built name args (Some ipath) (Some opath) amp) w))
    = trace w ++ Open ipath O_RDONLY (os_open os ipath O_RDONLY)
              :: Open opath O_WRONLY_CREAT_TRUNC (-1)
              :: Fork (os_fork os) :: events.
Proof.
  intros Hin Hout. destruct w as [[arr cnt st sg] fg tr].
  unfold otherCommands, built, store_backgroundPid.
  cbn [inputFile outputFile ampersand command arguments].
  run_statements. apply Z.eqb_neq in Hin. rewrite Hin, Hout.
  repeat match goal with
         | |- context [if ?b then _ else _] => destruct b
         | |- context [match os_waitpid ?o ?p with _ => _ end] =>
             destruct (os_waitpid o p)
         end;
    try discriminate Hin;
    cbn [world_of trace]; rewrite <- ?app_assoc; cbn [app];
    eexists; reflexivity.
Qed.

(** C3 (the code against the claim).  [sort < in > /nodir/out]: the input
    file opens, the output file does not.  The shell prints nothing, forks,
    waits for the child and stores the child's exit status (0 here), not 1:
    the test after the second [open] looks at the input descriptor. *)
Theorem output_open_failure_still_forks :
  exists w,
    parseInput (cannot_open "/nodir/out") (Some "sort < in > /nodir/out")
      (at_prompt (fresh_heap 0) 0)
    = Next 0 w
    /\ trace w
       = [Open "in" O_RDONLY 3;
          Open "/nodir/out" O_WRONLY_CREAT_TRUNC (-1);
          Fork 1000; Sigaction SIGINT SIG_IGN; Sigaction SIGTSTP SIG_IGN;
          Close 3; Close (-1); Sigaction SIGTSTP Handler_SIGTSTP;
          Waitpid 1000 WAIT_BLOCK (Some (Exited 0))]
    /\ existsb is_fork (trace w) = true
    /\ existsb is_printf (trace w) = false
    /\ status (procs w) = 0.
Proof.
  eexists. split; [vm_compute; reflexivity|].
  repeat split; reflexivity.
Qed.

(* ===================================================================== *)
(** * C4: background commands and the null device                         *)
(* ===================================================================== *)

(** The part of the claim the code meets: for a foreground command without
    redirects nothing is opened at all. *)
Lemma foreground_opens_nothing (os : os_model) (name : string)
    (args : list string) (w : world) :
  exists events,
    trace (world_of (otherCommands os (built name args None None 0) w))
    = trace w ++ events
    /\ forallb (fun e => match e with Open _ _ _ => false | _ => true end)
         events = true.
Proof.
  destruct w as [[arr cnt st sg] fg tr].
  unfold otherCommands, built.
  cbn [inputFile outputFile ampersand command arguments].
  run_statements. cbn [Z.eqb Pos.eqb].
  destruct (os_fork os <? 0).
  { cbn [world_of trace]. rewrite <- !app_assoc. eexists.
    split; reflexivity. }
  destruct (os_fork os =? 0).
  { destruct (os_execvp os name (name :: args));
      cbn [world_of trace Z.eqb Pos.eqb]; rewrite <- !app_assoc; eexists;
      split; reflexivity. }
  destruct (os_waitpid os (os_fork os));
    cbn [world_of trace]; rewrite <- !app_assoc; eexists; split; reflexivity.
Qed.

(** In the child of any background command without redirects, whatever the
    system answers, [execvp] is reached and no [dup2] was made. *)
Lemma background_child_never_dup2 (os : os_model) (name : string)
    (args : list string) (w : world) :
  os_fork os = 0 ->
  exists events,
    trace (world_of (otherCommands os (built name args None None 1) w))
    = trace w ++ events
    /\ existsb is_dup2 events = false
    /\ In (Execvp name (name :: args)) events.
Proof.
  intros Hchild. destruct w as [[arr cnt st sg] fg tr].
  unfold otherCommands, built.
  cbn [inputFile outputFile ampersand command arguments].
  run_statements. rewrite Hchild. cbn [Z.eqb Z.ltb Z.compare Pos.eqb].
  destruct (os_execvp os name (name :: args));
    cbn [world_of trace Z.eqb Pos.eqb]; rewrite <- ?app_assoc; cbn [app];
    eexists; (split; [reflexivity|]); split; [reflexivity| | reflexivity| ];
    cbn [In]; intuition.
Qed.

(** C4 (the code against the claim).  Whatever [open] answers, the child
    of the background command [sleep 5 &] opens the path [/dev/null/] twice
    and goes on to [execvp] without a single [dup2]: its standard input and
    output are what the shell's were.  For [sort < in &] the descriptor of
    [in] is overwritten by the read-only open that was meant as the
    stand-in; that open fails, so does the [dup2] onto standard input, and
    the child stores status 1 and returns to the prompt loop without running
    [sort]; standard output is again left alone. *)
Theorem background_child_not_on_null_device
    (opener : string -> open_flags -> Z) :
  exists w w',
    parseInput (in_child opener) (Some "sleep 5 &") (at_prompt (fresh_heap 0) 0)
    = Stopped ImageReplaced w
    /\ trace w
       = [Fork 0;
          Open "/dev/null/" O_RDONLY (opener "/dev/null/" O_RDONLY);
          Open "/dev/null/" O_WRONLY_CREAT_TRUNC
            (opener "/dev/null/" O_WRONLY_CREAT_TRUNC);
          Sigaction SIGINT SIG_IGN; Sigaction SIGTSTP SIG_IGN;
          Execvp "sleep" ["sleep"; "5"]]
    /\ existsb is_dup2 (trace w) = false
    /\ parseInput (in_child only_in) (Some "sort < in &")
         (at_prompt (fresh_heap 0) 0)
       = Next 0 w'
    /\ trace w'
       = [Open "in" O_RDONLY 3; Fork 0; Open "/dev/null/" O_RDONLY (-1);
          Sigaction SIGINT SIG_IGN; Sigaction SIGTSTP SIG_IGN;
          Dup2 (-1) 0 (-1)]
    /\ status (procs w') = 1.
Proof.
  eexists. eexists.
  split; [vm_compute; reflexivity|].
  split; [vm_compute; reflexivity|].
  split; [reflexivity|].
  split; [vm_compute; reflexivity|].
  split; reflexivity.
Qed.

(* ===================================================================== *)
(** * Further properties: the expansion stage                             *)
(* ===================================================================== *)

(** X1.  A line with one marker, after a non-empty text, and no other [$]
    comes out with the process id in the marker's place, which is also what
    the expansion as specified gives; a line without any marker, lone [$]
    included, comes out as it went in. *)
Theorem expansion_of_one_marker (p : string) (c : ascii) (before after : string) :
  dollar_free (String c before) = true ->
  dollar_free after = true ->
  expandPID p (String c before +:+ dollars +:+ after)
  = inr (String c before +:+ p +:+ after)
  /\ expandPID p (String c before +:+ dollars +:+ after)
     = inr (expand_spec p (String c before +:+ dollars +:+ after))
  /\ (forall line, strstr line dollars = None -> expandPID p line = inr line).
Proof.
  intros Hb Ha. split; [now apply expandPID_single_marker|].
  split; [|intros line; apply expandPID_no_marker].
  rewrite (expand_spec_single_marker p _ _ Hb Ha).
  now apply expandPID_single_marker.
Qed.

(** The line [ps -p $$ -o pid] with process id 4242. *)
Lemma expansion_of_one_marker_witness :
  dollar_free "ps -p " = true
  /\ dollar_free " -o pid" = true
  /\ expandPID "4242" "ps -p $$ -o pid" = inr "ps -p 4242 -o pid".
Proof.
  split; [reflexivity|]. split; [reflexivity|].
  exact (proj1 (expansion_of_one_marker "4242" "p" "s -p " " -o pid"
                  eq_refl eq_refl)).
Defined.

Lemma member_dollars (c : ascii) : member c dollars = Ascii.eqb c "$".
Proof. unfold dollars. cbn [member]. now destruct (Ascii.eqb c "$"). Qed.

Lemma only_dollars_span_in (s : string) :
  only_dollars s = true -> span_in dollars s = (s, EmptyString).
Proof.
  induction s as [|c s IH]; intros H; [reflexivity|].
  cbn [only_dollars] in H. apply andb_prop in H as [Hc Hs].
  cbn [span_in]. rewrite member_dollars, Hc, (IH Hs). reflexivity.
Qed.

Lemma span_in_dollars_stops (s : string) :
  only_dollars s = false ->
  exists lead b body,
    span_in dollars s = (lead, String b body)
    /\ only_dollars lead = true
    /\ Ascii.eqb b "$" = false.
Proof.
  induction s as [|c s IH]; intros H; [discriminate|].
  cbn [only_dollars] in H. cbn [span_in]. rewrite member_dollars.
  destruct (Ascii.eqb c "$") eqn:Hc.
  - cbn [andb] in H. destruct (IH H) as (lead & b & body & Hs & Hl & Hb).
    rewrite Hs. exists (String c lead), b, body.
    split; [reflexivity|]. split; [|exact Hb].
    cbn [only_dollars]. now rewrite Hc, Hl.
  - exists EmptyString, c, s. repeat split. exact Hc.
Qed.

Lemma span_in_lead_then_text (lead text : string) (b : ascii) :
  only_dollars lead = true ->
  Ascii.eqb b "$" = false ->
  span_in dollars (lead +:+ String b text) = (lead, String b text).
Proof.
  intros Hl Hb. induction lead as [|c lead IH].
  - rewrite append_nil. cbn [span_in]. now rewrite member_dollars, Hb.
  - cbn [only_dollars] in Hl. apply andb_prop in Hl as [Hc Hl].
    rewrite append_cons. cbn [span_in]. rewrite member_dollars, Hc.
    now rewrite (IH Hl).
Qed.

Lemma span_out_is_dollar_free (s : string) :
  dollar_free (fst (span_out dollars s)) = true.
Proof.
  induction s as [|c s IH]; [reflexivity|].
  cbn [span_out]. rewrite member_dollars.
  destruct (Ascii.eqb c "$") eqn:Hc; [reflexivity|].
  destruct (span_out dollars s) as [run rest]. cbn [fst] in *.
  cbn [dollar_free]. now rewrite Hc, IH.
Qed.

(** Once [strtok] no longer shortens the copy, the loop cannot end. *)
Lemma expand_loop_stuck (p inputCopy found t : string) :
  strstr inputCopy dollars = Some found ->
  tok (strtok inputCopy dollars) = Some t ->
  reads (strtok inputCopy dollars) = inputCopy ->
  forall n inputPID, expand_loop n p inputCopy inputPID = inl BufferOverrun.
Proof.
  intros Hstr Htok Hreads. induction n as [|n IH]; intros inputPID.
  - cbn [expand_loop]. now rewrite Hstr.
  - rewrite expand_loop_step, Hstr, Htok, Hreads. apply IH.
Qed.

(** X2.  A line that begins with the marker never expands: when nothing
    but [$] follows, [strtok] finds no token and a NULL reaches [strcat];
    otherwise the copy keeps its leading markers for ever and the loop runs
    until [inputPID] overflows. *)
Theorem expansion_faults_on_leading_marker (p rest : string) :
  expandPID p (String "$" (String "$" rest))
  = inl (if only_dollars rest then NullDeref else BufferOverrun).
Proof.
  unfold expandPID.
  change (strstr (String "$" (String "$" rest)) dollars)
    with (Some (String "$" (String "$" rest))).
  destruct len_positive as [n ->]. rewrite expand_loop_step.
  change (strstr (String "$" (String "$" rest)) dollars)
    with (Some (String "$" (String "$" rest))).
  cbv iota beta.
  destruct (only_dollars rest) eqn:E.
  - unfold strtok at 1.
    rewrite (only_dollars_span_in (String "$" (String "$" rest))); [reflexivity|].
    cbn [only_dollars Ascii.eqb Bool.eqb andb]. exact E.
  - destruct (span_in_dollars_stops rest E) as (lead & b & body & Hs & Hl & Hb).
    assert (Hin : span_in dollars (String "$" (String "$" rest))
                  = (String "$" (String "$" lead), String b body)).
    { cbn [span_in]. rewrite member_dollars.
      cbn [Ascii.eqb Bool.eqb]. now rewrite Hs. }
    pose proof (span_out_is_dollar_free (String b body)) as Hfree.
    destruct (span_out dollars (String b body)) as [t after] eqn:Hso.
    cbn [fst] in Hfree.
    assert (Ht : exists t', t = String b t').
    { cbn [span_out] in Hso. rewrite member_dollars, Hb in Hso.
      destruct (span_out dollars body) as [run r]. injection Hso as <- _.
      now exists run. }
    destruct Ht as [t' ->].
    assert (Hfirst : strtok (String "$" (String "$" rest)) dollars
                     = {| tok := Some (String b t');
                          reads := String "$" (String "$" lead) +:+ String b t';
                          saved := match after with
                                   | EmptyString => EmptyString
                                   | String _ r => r
                                   end |}).
    { unfold strtok. now rewrite Hin, Hso. }
    rewrite Hfirst. cbn [tok reads].
    assert (Hagain : strtok (String "$" (String "$" lead) +:+ String b t') dollars
                     = {| tok := Some (String b t');
                          reads := String "$" (String "$" lead) +:+ String b t';
                          saved := EmptyString |}).
    { unfold strtok.
      rewrite (span_in_lead_then_text (String "$" (String "$" lead)) t' b);
        [|cbn [only_dollars Ascii.eqb Bool.eqb andb]; exact Hl|exact Hb].
      now rewrite (span_out_dollar_free_end _ Hfree). }
    apply (expand_loop_stuck p _
             (String "$" (String "$" lead) +:+ String b t') (String b t')).
    + reflexivity.
    + now rewrite Hagain.
    + now rewrite Hagain.
Qed.

(* ===================================================================== *)
(** * Further properties: the Command Record                              *)
(* ===================================================================== *)

Lemma free_of_app (delim a b : string) :
  free_of delim (a +:+ b) = free_of delim a && free_of delim b.
Proof.
  induction a as [|c a IH]; [reflexivity|].
  rewrite append_cons. cbn [free_of]. rewrite IH. now rewrite andb_assoc.
Qed.

Lemma tokens_from_proper (delim s : string) :
  forall cur,
    match cur with Some t => proper_token delim t | None => True end ->
    Forall (proper_token delim) (tokens_from delim s cur).
Proof.
  induction s as [|c s IH]; intros cur Hcur; cbn [tokens_from].
  - destruct cur; [|constructor]. constructor; [exact Hcur|constructor].
  - destruct (member c delim) eqn:Hc.
    + destruct cur; [constructor; [exact Hcur|]|]; now apply IH.
    + apply IH. destruct cur as [t|].
      * destruct Hcur as [Hne Hfree]. split.
        -- destruct t; [contradiction|]. rewrite append_cons. discriminate.
        -- rewrite free_of_app, Hfree. cbn [free_of]. now rewrite Hc.
      * split; [discriminate|]. cbn [free_of]. now rewrite Hc.
Qed.

(** What [strtok] hands out is never empty and holds no delimiter. *)
Lemma tokens_proper (s delim : string) :
  Forall (proper_token delim) (tokens s delim).
Proof. unfold tokens. now apply tokens_from_proper. Qed.

(** Where the loop takes what it stores: arguments are ordinary tokens of
    the line, redirect targets are tokens of the line. *)
Lemma tokenize_loop_sources (fg : Z) (n : nat) :
  forall (rest : list string) (c0 c : struct_command),
    (length rest <= n)%nat ->
    tokenize_loop fg rest c0 = inr c ->
    (exists added, arguments c = arguments c0 ++ added
                   /\ Forall ordinary added
                   /\ Forall (fun a => In a rest) added)
    /\ (forall f, inputFile c = Some f -> inputFile c0 = Some f \/ In f rest)
    /\ (forall f, outputFile c = Some f -> outputFile c0 = Some f \/ In f rest).
Proof.
  induction n as [|n IH]; intros rest c0 c Hlen Hrun.
  - destruct rest; [|cbn in Hlen; lia].
    cbn in Hrun. injection Hrun as <-.
    split; [exists []; rewrite app_nil_r; auto|]. split; intros; auto.
  - destruct rest as [|token rest]; cbn [tokenize_loop] in Hrun.
    { injection Hrun as <-.
      split; [exists []; rewrite app_nil_r; auto|]. split; intros; auto. }
    cbn [length] in Hlen.
    destruct (String.eqb_spec token "<") as [->|Hlt].
    { destruct rest as [|file rest]; [discriminate|]. cbn [length] in Hlen.
      apply IH in Hrun as ((added & Hargs & Hord & Hin) & Hi & Ho); [|lia].
      cbn [arguments inputFile outputFile] in *. split; [|split].
      - exists added. split; [exact Hargs|]. split; [exact Hord|].
        eapply Forall_impl; [exact Hin|]. intros a Ha. right. right. exact Ha.
      - intros f Hf. destruct (Hi f Hf) as [E|E].
        + injection E as <-. right. right. left. reflexivity.
        + right. right. right. exact E.
      - intros f Hf. destruct (Ho f Hf) as [E|E]; [now left|].
        right. right. right. exact E. }
    destruct (String.eqb_spec token ">") as [->|Hgt].
    { destruct rest as [|file rest]; [discriminate|]. cbn [length] in Hlen.
      apply IH in Hrun as ((added & Hargs & Hord & Hin) & Hi & Ho); [|lia].
      cbn [arguments inputFile outputFile] in *. split; [|split].
      - exists added. split; [exact Hargs|]. split; [exact Hord|].
        eapply Forall_impl; [exact Hin|]. intros a Ha. right. right. exact Ha.
      - intros f Hf. destruct (Hi f Hf) as [E|E]; [now left|].
        right. right. right. exact E.
      - intros f Hf. destruct (Ho f Hf) as [E|E].
        + injection E as <-. right. right. left. reflexivity.
        + right. right. right. exact E. }
    destruct (String.eqb_spec token "&") as [->|Hamp].
    { destruct rest as [|next rest].
      - injection Hrun as <-.
        destruct (fg =? 0); cbn [arguments inputFile outputFile];
          (split; [exists []; rewrite app_nil_r; auto|]); split; intros; auto.
      - apply IH in Hrun as ((added & Hargs & Hord & Hin) & Hi & Ho); [|lia].
        split; [|split].
        + exists added. split; [exact Hargs|]. split; [exact Hord|].
          eapply Forall_impl; [exact Hin|]. intros a Ha. right. exact Ha.
        + intros f Hf. destruct (Hi f Hf) as [E|E]; [now left|].
          right. right. exact E.
        + intros f Hf. destruct (Ho f Hf) as [E|E]; [now left|].
          right. right. exact E. }
    destruct (Z.of_nat (length (arguments c0)) <? 512); [|discriminate].
    apply IH in Hrun as ((added & Hargs & Hord & Hin) & Hi & Ho); [|lia].
    cbn [arguments inputFile outputFile] in *. split; [|split].
    + exists (token :: added). split; [now rewrite Hargs, <- app_assoc|].
      split; [constructor; [repeat split; assumption|exact Hord]|].
      constructor; [left; reflexivity|].
      eapply Forall_impl; [exact Hin|]. intros a Ha. right. exact Ha.
    + intros f Hf. destruct (Hi f Hf) as [E|E]; [now left|].
      right. right. exact E.
    + intros f Hf. destruct (Ho f Hf) as [E|E]; [now left|].
      right. right. exact E.
Qed.

(** X3.  Every Command Record the tokenizer builds without a memory
    fault, so from a line whose arguments fit the 512 slots of the array, is
    well formed: the argument list starts with the program name; the name,
    every argument and every redirect target is a token of the line, so none
    is empty and none holds a space; no argument after the name is [<], [>]
    or [&]; the background flag is 0 or 1. *)
Theorem command_record_is_well_formed
    (fg : Z) (line : string) (c : struct_command) :
  build_command fg line = inr c ->
  (exists args, arguments c = command c :: args /\ Forall ordinary args)
  /\ Forall (proper_token " ") (arguments c)
  /\ (forall f, inputFile c = Some f -> proper_token " " f)
  /\ (forall f, outputFile c = Some f -> proper_token " " f)
  /\ (ampersand c = 0 \/ ampersand c = 1).
Proof.
  unfold build_command. intros Hrun.
  pose proof (tokens_proper line " ") as Hproper.
  destruct (tokens line " ") as [|token rest] eqn:Htok; [discriminate|].
  apply Forall_cons in Hproper as [Htoken Hrest].
  rewrite Forall_forall in Hrest.
  pose proof (tokenize_loop_effect fg (length rest) rest _ c (le_n _) Hrun)
    as (Hamp & _ & Hcmd & _).
  pose proof (tokenize_loop_sources fg (length rest) rest _ c (le_n _) Hrun)
    as ((added & Hargs & Hord & Hin) & Hi & Ho).
  cbn [ampersand command arguments inputFile outputFile] in *.
  split; [|split; [|split; [|split]]].
  - exists added. rewrite Hargs, Hcmd. split; [reflexivity|exact Hord].
  - rewrite Hargs. constructor; [exact Htoken|].
    rewrite Forall_forall in Hin. apply Forall_forall.
    intros a Ha. apply Hrest, list_elem_of_In, Hin. exact Ha.
  - intros f Hf. destruct (Hi f Hf) as [E|E]; [discriminate|].
    apply Hrest, list_elem_of_In, E.
  - intros f Hf. destruct (Ho f Hf) as [E|E]; [discriminate|].
    apply Hrest, list_elem_of_In, E.
  - destruct Hamp as [H0|(H1 & _)]; auto.
Qed.

(** The line [wc -l < in > out &] with the mode off. *)
Lemma command_record_is_well_formed_witness :
  build_command 0 "wc -l < in > out &"
  = inr (built "wc" ["-l"] (Some "in") (Some "out") 1)
  /\ exists args,
       arguments (built "wc" ["-l"] (Some "in") (Some "out") 1)
       = command (built "wc" ["-l"] (Some "in") (Some "out") 1) :: args
       /\ Forall ordinary args.
Proof.
  assert (H : build_command 0 "wc -l < in > out &"
              = inr (built "wc" ["-l"] (Some "in") (Some "out") 1)).
  { vm_compute. reflexivity. }
  split; [exact H|].
  exact (proj1 (command_record_is_well_formed 0 "wc -l < in > out &" _ H)).
Defined.

Lemma tokenize_loop_input (fg : Z) (file : string) (rest : list string)
    (c : struct_command) :
  tokenize_loop fg ("<" :: file :: rest) c
  = tokenize_loop fg rest
      {| command := command c; arguments := arguments c;
         inputFile := Some file; outputFile := outputFile c;
         ampersand := ampersand c |}.
Proof. reflexivity. Qed.

Lemma tokenize_loop_output (fg : Z) (file : string) (rest : list string)
    (c : struct_command) :
  tokenize_loop fg (">" :: file :: rest) c
  = tokenize_loop fg rest
      {| command := command c; arguments := arguments c;
         inputFile := inputFile c; outputFile := Some file;
         ampersand := ampersand c |}.
Proof. reflexivity. Qed.

Lemma tokenize_loop_ordinary_end (fg : Z) (args : list string)
    (c : struct_command) :
  Forall ordinary args ->
  Z.of_nat (length (arguments c) + length args) <= 512 ->
  tokenize_loop fg args c = inr (with_arguments c args).
Proof.
  intros H Hroom. rewrite <- (app_nil_r args) at 1.
  now rewrite (tokenize_loop_ordinary _ _ _ H) by exact Hroom.
Qed.

(** X4.  Redirects may stand anywhere among the arguments, in either
    order: on a line with at most 512 arguments, counting the program name,
    the two operators and the token after each are taken out, whatever that
    token is, and the other tokens become the arguments in their order.
    When the same redirect is given twice the later one stays. *)
Theorem redirects_anywhere
    (fg : Z) (line prog fi fo : string) (args1 args2 args3 : list string) :
  Forall ordinary args1 -> Forall ordinary args2 -> Forall ordinary args3 ->
  Z.of_nat (length (args1 ++ args2 ++ args3)) < 512 ->
  (tokens line " " = prog :: args1 ++ "<" :: fi :: args2 ++ ">" :: fo :: args3 ->
   build_command fg line
   = inr (built prog (args1 ++ args2 ++ args3) (Some fi) (Some fo) 0))
  /\ (tokens line " " = prog :: args1 ++ ">" :: fo :: args2 ++ "<" :: fi :: args3 ->
      build_command fg line
      = inr (built prog (args1 ++ args2 ++ args3) (Some fi) (Some fo) 0))
  /\ (tokens line " " = prog :: args1 ++ "<" :: fi :: args2 ++ "<" :: fo :: args3 ->
      build_command fg line
      = inr (built prog (args1 ++ args2 ++ args3) (Some fo) None 0))
  /\ (tokens line " " = prog :: args1 ++ ">" :: fi :: args2 ++ ">" :: fo :: args3 ->
      build_command fg line
      = inr (built prog (args1 ++ args2 ++ args3) None (Some fo) 0)).
Proof.
  intros H1 H2 H3 Hroom. rewrite !length_app in Hroom. unfold build_command.
  repeat split; intros ->;
    change {| command := prog; arguments := [prog]; inputFile := None;
              outputFile := None; ampersand := 0 |}
      with (built prog [] None None 0);
    rewrite (tokenize_loop_ordinary _ _ _ H1)
      by (cbn [built arguments length]; lia);
    rewrite ?tokenize_loop_input, ?tokenize_loop_output;
    rewrite (tokenize_loop_ordinary _ _ _ H2)
      by (cbn [built with_arguments arguments length app];
          rewrite ?length_app; cbn [length]; lia);
    rewrite ?tokenize_loop_input, ?tokenize_loop_output;
    rewrite (tokenize_loop_ordinary_end _ _ _ H3)
      by (cbn [built with_arguments arguments length app];
          rewrite ?length_app; cbn [length]; lia);
    unfold with_arguments, built; cbn; now rewrite <- !app_assoc.
Qed.

(** The line [sort -r < in -u > out now]. *)
Lemma redirects_anywhere_witness :
  Forall ordinary ["-r"] /\ Forall ordinary ["-u"] /\ Forall ordinary ["now"]
  /\ Z.of_nat (length (["-r"] ++ ["-u"] ++ ["now"])) < 512
  /\ build_command 0 "sort -r < in -u > out now"
     = inr (built "sort" ["-r"; "-u"; "now"] (Some "in") (Some "out") 0).
Proof.
  assert (O : forall t, String.eqb t "<" = false -> String.eqb t ">" = false ->
                        String.eqb t "&" = false -> Forall ordinary [t]).
  { intros t A B C. constructor; [|constructor].
    repeat split; now apply String.eqb_neq. }
  assert (H1 : Forall ordinary ["-r"]) by now apply O.
  assert (H2 : Forall ordinary ["-u"]) by now apply O.
  assert (H3 : Forall ordinary ["now"]) by now apply O.
  assert (Hroom : Z.of_nat (length (["-r"] ++ ["-u"] ++ ["now"])) < 512).
  { reflexivity. }
  split; [exact H1|]. split; [exact H2|]. split; [exact H3|].
  split; [exact Hroom|].
  apply (proj1 (redirects_anywhere 0 "sort -r < in -u > out now"
                  "sort" "in" "out" ["-r"] ["-u"] ["now"] H1 H2 H3 Hroom)).
  vm_compute. reflexivity.
Defined.

(** X5.  A redirect operator that ends the line has no token after it, and
    the NULL that [strtok] returns for it is handed to [strlen]: the line
    cannot be parsed.  (On a line with more than 512 arguments the store
    outside the argument array comes first.) *)
Theorem redirect_without_target_faults
    (fg : Z) (line prog : string) (args : list string) :
  Forall ordinary args ->
  (tokens line " " = prog :: args ++ ["<"] \/ tokens line " " = prog :: args ++ [">"]) ->
  build_command fg line
  = inl (if Z.of_nat (length args) <? 512 then NullDeref else OutOfBounds).
Proof.
  intros Hord H. unfold build_command.
  destruct (Z.ltb_spec (Z.of_nat (length args)) 512) as [Hroom|Hover].
  - destruct H as [H|H]; rewrite H;
      rewrite (tokenize_loop_ordinary _ _ _ Hord)
        by (cbn [arguments length]; lia);
      reflexivity.
  - destruct H as [H|H]; rewrite H;
      apply (tokenize_loop_overflow _ _ _ Hord); cbn [arguments length]; lia.
Qed.

(** The line [cat <]. *)
Lemma redirect_without_target_faults_witness :
  Forall ordinary []
  /\ (tokens "cat <" " " = "cat" :: [] ++ ["<"]
      \/ tokens "cat <" " " = "cat" :: [] ++ [">"])
  /\ build_command 0 "cat <" = inl NullDeref.
Proof.
  assert (H : tokens "cat <" " " = "cat" :: [] ++ ["<"]
              \/ tokens "cat <" " " = "cat" :: [] ++ [">"]).
  { left. vm_compute. reflexivity. }
  assert (N : Forall ordinary []) by constructor.
  split; [exact N|]. split; [exact H|].
  exact (redirect_without_target_faults 0 "cat <" "cat" [] N H).
Defined.

Lemma tokens_from_trailing (delim s : string) (c : ascii) :
  member c delim = true ->
  forall cur,
    tokens_from delim (s +:+ String c EmptyString) cur = tokens_from delim s cur.
Proof.
  intros Hc. induction s as [|x s IH]; intros cur.
  - rewrite append_nil. cbn [tokens_from]. rewrite Hc. now destruct cur.
  - rewrite append_cons. cbn [tokens_from]. destruct (member x delim).
    + destruct cur; now rewrite IH.
    + apply IH.
Qed.

Lemma tokens_from_doubled (delim a b : string) (c : ascii) :
  member c delim = true ->
  forall cur,
    tokens_from delim (a +:+ String c (String c b)) cur
    = tokens_from delim (a +:+ String c b) cur.
Proof.
  intros Hc. induction a as [|x a IH]; intros cur.
  - rewrite !append_nil. cbn [tokens_from]. rewrite Hc. now destruct cur.
  - rewrite !append_cons. cbn [tokens_from]. destruct (member x delim).
    + destruct cur; now rewrite IH.
    + apply IH.
Qed.

(** X6.  Spaces before the first token, after the last one, and doubled
    between two tokens make no difference to the Command Record. *)
Theorem spaces_do_not_matter (fg : Z) (line rest : string) :
  build_command fg (String " " line) = build_command fg line
  /\ build_command fg (line +:+ " ") = build_command fg line
  /\ build_command fg (line +:+ String " " (String " " rest))
     = build_command fg (line +:+ String " " rest).
Proof.
  unfold build_command, tokens. split; [reflexivity|]. split.
  - now rewrite (tokens_from_trailing " " line " " eq_refl).
  - now rewrite (tokens_from_doubled " " line rest " " eq_refl).
Qed.

(* ===================================================================== *)
(** * Further properties: the executor                                    *)
(* ===================================================================== *)

(** Put the trace of a finished run in the form [trace w ++ events]. *)
Ltac flatten_trace :=
  cbn [world_of trace procs foreground backgroundPids pidCount status signal];
  rewrite <- ?app_assoc; cbn [app].

(** X7.  An input file that cannot be opened: the command is given up
    before any fork.  The shell prints [Cannot open <path> for input.],
    stores status 1, makes no other call (the output file is not even
    opened) and leaves everything else as it was. *)
Theorem input_open_failure_abandons_command
    (os : os_model) (cmd : struct_command) (path : string) (w : world) :
  inputFile cmd = Some path ->
  os_open os path O_RDONLY = -1 ->
  otherCommands os cmd w
  = Next tt
      {| procs := {| backgroundPids := backgroundPids (procs w);
                     pidCount := pidCount (procs w);
                     status := 1; signal := signal (procs w) |};
         foreground := foreground w;
         trace := trace w ++ [Open path O_RDONLY (-1);
                              Printf ("Cannot open " +:+ path
                                      +:+ " for input." +:+ nl)] |}.
Proof.
  intros Hin Hfail. destruct w as [[arr cnt st sg] fg tr].
  destruct cmd as [name args i o amp]. cbn [inputFile] in Hin. subst i.
  unfold otherCommands. cbn [inputFile]. run_statements.
  rewrite Hfail. cbn [Z.eqb Pos.eqb]. now rewrite <- app_assoc.
Qed.

(** [sort < /nodir/in], the file being one that cannot be opened. *)
Lemma input_open_failure_abandons_command_witness :
  inputFile (built "sort" [] (Some "/nodir/in") None 0) = Some "/nodir/in"
  /\ os_open (cannot_open "/nodir/in") "/nodir/in" O_RDONLY = -1
  /\ otherCommands (cannot_open "/nodir/in")
       (built "sort" [] (Some "/nodir/in") None 0) (at_prompt two_jobs 0)
     = Next tt
         {| procs := {| backgroundPids := backgroundPids two_jobs;
                        pidCount := 2; status := 1; signal := 0 |};
            foreground := 0;
            trace := [Open "/nodir/in" O_RDONLY (-1);
                      Printf ("Cannot open /nodir/in for input." +:+ nl)] |}.
Proof.
  split; [reflexivity|]. split; [reflexivity|].
  exact (input_open_failure_abandons_command (cannot_open "/nodir/in")
           (built "sort" [] (Some "/nodir/in") None 0) "/nodir/in"
           (at_prompt two_jobs 0) eq_refl eq_refl).
Defined.

(** Use the tests known to fail or to succeed. *)
Ltac use_tests :=
  repeat match goal with
         | H : (_ =? _) = _ |- _ => rewrite H; cbn [Z.eqb Pos.eqb andb]
         | H : (_ <? _) = _ |- _ => rewrite H; cbn [Z.eqb Pos.eqb andb]
         | H : (_ <=? _) = _ |- _ => rewrite H; cbn [Z.eqb Pos.eqb andb]
         | H : (_ && _) = _ |- _ => rewrite H; cbn [Z.eqb Pos.eqb andb]
         end.

(** X8.  A fork that fails, for a command that got past the opens of its
    redirects: the shell prints [fork() failed.] last, stores status 1 and
    returns without waiting, without running anything and without adding a
    PID, whatever the opens of [/dev/null/] answered; the handler of the
    suspend signal, set to ignore just before, is not put back. *)
Theorem fork_failure_abandons_command
    (os : os_model) (cmd : struct_command) (w : world) :
  os_fork os < 0 ->
  redirects_open os cmd ->
  exists events,
    otherCommands os cmd w
    = Next tt
        {| procs := {| backgroundPids := backgroundPids (procs w);
                       pidCount := pidCount (procs w);
                       status := 1; signal := signal (procs w) |};
           foreground := foreground w;
           trace := trace w ++ events |}
    /\ last events = Some (Printf "fork() failed.")
    /\ existsb is_wait events = false
    /\ existsb is_execvp events = false
    /\ ~ In (Sigaction SIGTSTP Handler_SIGTSTP) events
    /\ In (Sigaction SIGTSTP SIG_IGN) events.
Proof.
  intros Hfork Hopen. destruct w as [[arr cnt st sg] fg tr].
  destruct cmd as [name args i o amp].
  pose proof (redirects_open_tests _ _ _ _ _ _ Hopen) as Htest.
  assert (Hn : (os_fork os <? 0) = true) by now apply Z.ltb_lt.
  clear Hopen Hfork.
  unfold otherCommands. cbn [inputFile outputFile ampersand command arguments].
  destruct i as [ipath|], o as [opath|], (amp =? 1); run_statements;
    use_tests; flatten_trace;
    (eexists; split; [reflexivity|]);
    (split; [reflexivity|]); (split; [reflexivity|]); (split; [reflexivity|]);
    (split; [cbn [In]; intuition discriminate | cbn [In]; intuition]).
Qed.

(** [sleep 5 &] when the system cannot create a process and [/dev/null/]
    cannot be opened. *)
Lemma fork_failure_abandons_command_witness :
  os_fork fork_fails < 0
  /\ redirects_open fork_fails (built "sleep" ["5"] None None 1)
  /\ exists events,
       otherCommands fork_fails (built "sleep" ["5"] None None 1)
         (at_prompt two_jobs 0)
       = Next tt
           {| procs := {| backgroundPids := backgroundPids two_jobs;
                          pidCount := 2; status := 1; signal := 0 |};
              foreground := 0;
              trace := [] ++ events |}
       /\ last events = Some (Printf "fork() failed.").
Proof.
  assert (Hopen : redirects_open fork_fails (built "sleep" ["5"] None None 1)).
  { split; [intros path H; discriminate H | intros _ H; now contradiction H]. }
  split; [reflexivity|]. split; [exact Hopen|].
  destruct (fork_failure_abandons_command fork_fails
              (built "sleep" ["5"] None None 1) (at_prompt two_jobs 0)
              eq_refl Hopen)
    as (events & Hrun & Hlast & _).
  exists events. split; [exact Hrun | exact Hlast].
Defined.




(** X10.  In the child of a command that got past the opens of its
    redirects, a [dup2] that fails, onto standard input or, that one
    passed, onto standard output, makes the child store status 1 and return
    from [otherCommands]: the program is never run and the child does not
    exit, so it goes back to the prompt loop as the parent does.  The
    descriptor is the one the code holds at that point, so this is what
    happens to [cat < in &], whose input descriptor was overwritten by the
    failed open of [/dev/null/]. *)
Theorem child_returns_when_dup2_fails
    (os : os_model) (cmd : struct_command) (w : world) :
  os_fork os = 0 ->
  redirects_open os cmd ->
  (inputFile cmd <> None /\ os_dup2 os (sourceFD_at_dup2 os cmd) 0 = -1)
  \/ ((inputFile cmd <> None -> os_dup2 os (sourceFD_at_dup2 os cmd) 0 <> -1)
      /\ outputFile cmd <> None
      /\ os_dup2 os (targetFD_at_dup2 os cmd) 1 = -1) ->
  exists w' events,
    otherCommands os cmd w = Next tt w'
    /\ trace w' = trace w ++ events
    /\ status (procs w') = 1
    /\ (exists oldfd newfd, last events = Some (Dup2 oldfd newfd (-1)))
    /\ existsb is_execvp events = false
    /\ (command cmd <> "exit" -> command cmd <> "cd" -> command cmd <> "status" ->
        dispatch os cmd w = Next 0 w').
Proof.
  intros Hfork Hopen Hdup. destruct w as [[arr cnt st sg] fg tr].
  destruct cmd as [name args i o amp].
  pose proof (redirects_open_tests _ _ _ _ _ _ Hopen) as Htest.
  clear Hopen.
  assert (Hrun : exists w' events,
             otherCommands os (Command name args i o amp)
               {| procs := Processes arr cnt st sg; foreground := fg; trace := tr |}
             = Next tt w'
             /\ trace w' = tr ++ events
             /\ status (procs w') = 1
             /\ (exists oldfd newfd, last events = Some (Dup2 oldfd newfd (-1)))
             /\ existsb is_execvp events = false).
  { unfold otherCommands, sourceFD_at_dup2, targetFD_at_dup2 in *.
    cbn [inputFile outputFile ampersand command arguments] in *.
    destruct Hdup as [[Hin Hd0] | (Hd0 & Hout & Hd1)].
    - destruct i as [ipath|]; [clear Hin | now contradiction Hin].
      destruct o as [opath|], (amp =? 1), (amp =? 0); run_statements;
        rewrite ?Hfork; cbn [Z.eqb Z.ltb Z.compare Pos.eqb]; use_tests;
        rewrite ?Hd0; cbn [Z.eqb Pos.eqb]; flatten_trace;
        (eexists; eexists; split; [reflexivity|]);
        (split; [flatten_trace; reflexivity|]); (split; [reflexivity|]);
        (split; [eexists; eexists; reflexivity | reflexivity]).
    - destruct o as [opath|]; [clear Hout | now contradiction Hout].
      destruct i as [ipath|], (amp =? 1), (amp =? 0);
        try (specialize (Hd0 ltac:(discriminate)); apply Z.eqb_neq in Hd0);
        run_statements; rewrite ?Hfork; cbn [Z.eqb Z.ltb Z.compare Pos.eqb];
        use_tests; rewrite ?Hd1; cbn [Z.eqb Pos.eqb]; flatten_trace;
        (eexists; eexists; split; [reflexivity|]);
        (split; [flatten_trace; reflexivity|]); (split; [reflexivity|]);
        (split; [eexists; eexists; reflexivity | reflexivity]). }
  destruct Hrun as (w' & events & Hrun & Htrace & Hst & Hd & He).
  exists w', events. repeat split; try assumption.
  cbn [command]. intros Hexit Hcd Hstatus. unfold dispatch. cbn [command].
  apply String.eqb_neq in Hexit, Hcd, Hstatus.
  rewrite Hexit, Hcd, Hstatus. unfold bind. now rewrite Hrun.
Qed.

(** [cat < in &] seen from its child, on a system where [in] opens and
    [/dev/null/] does not. *)
Lemma child_returns_when_dup2_fails_witness :
  os_fork (in_child only_in) = 0
  /\ redirects_open (in_child only_in) (built "cat" [] (Some "in") None 1)
  /\ os_dup2 (in_child only_in)
       (sourceFD_at_dup2 (in_child only_in) (built "cat" [] (Some "in") None 1))
       0 = -1
  /\ exists w',
       dispatch (in_child only_in) (built "cat" [] (Some "in") None 1)
         (at_prompt two_jobs 0)
       = Next 0 w'
       /\ status (procs w') = 1.
Proof.
  assert (Hopen : redirects_open (in_child only_in)
                    (built "cat" [] (Some "in") None 1)).
  { split; [intros path H; injection H as <-; discriminate
           | intros H; discriminate H]. }
  assert (Hdup : os_dup2 (in_child only_in)
                   (sourceFD_at_dup2 (in_child only_in)
                      (built "cat" [] (Some "in") None 1)) 0 = -1).
  { reflexivity. }
  assert (Hin : inputFile (built "cat" [] (Some "in") None 1) <> None).
  { discriminate. }
  split; [reflexivity|]. split; [exact Hopen|]. split; [exact Hdup|].
  destruct (child_returns_when_dup2_fails (in_child only_in)
              (built "cat" [] (Some "in") None 1) (at_prompt two_jobs 0)
              eq_refl Hopen (or_introl (conj Hin Hdup)))
    as (w' & events & _ & _ & Hst & _ & _ & Hdisp).
  exists w'. split; [|exact Hst].
  apply Hdisp; discriminate.
Defined.

(** X11.  A foreground command whose redirects opened, seen from the
    parent: the shell re-arms the suspend handler, blocks on the child it
    just forked, and stores what the wait reports: status 2 and the signal
    number, with the line [Child terminated with signal <n>], for a child
    killed by a signal; the exit code, with no line at all, otherwise.  The
    PID array and its counter are untouched. *)
Theorem foreground_command_waits
    (os : os_model) (cmd : struct_command) (w : world) :
  ampersand cmd = 0 ->
  0 < os_fork os ->
  (forall path flags, os_open os path flags <> -1) ->
  indet_sourceFD os <> -1 ->
  exists events,
    otherCommands os cmd w
    = Next tt
        {| procs :=
             {| backgroundPids := backgroundPids (procs w);
                pidCount := pidCount (procs w);
                status := match os_waitpid os (os_fork os) with
                          | Signaled _ => 2
                          | Exited code => code
                          end;
                signal := match os_waitpid os (os_fork os) with
                          | Signaled s => s
                          | Exited _ => signal (procs w)
                          end |};
           foreground := foreground w;
           trace := trace w ++ events |}
    /\ List.filter is_wait events
       = [Waitpid (os_fork os) WAIT_BLOCK (Some (os_waitpid os (os_fork os)))]
    /\ List.filter is_printf events
       = match os_waitpid os (os_fork os) with
         | Signaled s =>
             [Printf ("Child terminated with signal " +:+ decimal s +:+ nl)]
         | Exited _ => []
         end
    /\ last (List.filter
               (fun e => match e with Sigaction SIGTSTP _ => true | _ => false end)
               events)
       = Some (Sigaction SIGTSTP Handler_SIGTSTP).
Proof.
  intros Hamp Hpid Hopen Hjunk. destruct w as [[arr cnt st sg] fg tr].
  destruct cmd as [name args i o amp]. cbn [ampersand] in Hamp. subst amp.
  assert (Hfd : forall path flags, (os_open os path flags =? -1) = false).
  { intros. now apply Z.eqb_neq. }
  assert (Hj : (indet_sourceFD os =? -1) = false) by now apply Z.eqb_neq.
  assert (Hn : (os_fork os <? 0) = false) by now apply Z.ltb_ge; lia.
  assert (Hz : (os_fork os =? 0) = false) by now apply Z.eqb_neq; lia.
  unfold otherCommands. cbn [inputFile outputFile ampersand command arguments].
  destruct i as [ipath|], o as [opath|], (os_waitpid os (os_fork os)) eqn:Hwait;
    run_statements; rewrite ?Hfd, ?Hj, ?Hn, ?Hz, ?Hwait;
    cbn [Z.eqb Pos.eqb]; rewrite ?Hn, ?Hz, ?Hwait; flatten_trace;
    (eexists; split; [reflexivity|]); repeat split; reflexivity.
Qed.

(** [make] killed by signal 2 while the shell waits for it. *)
Lemma foreground_command_waits_witness :
  ampersand (built "make" [] None None 0) = 0
  /\ 0 < os_fork (child_ends (Signaled 2))
  /\ exists w',
       otherCommands (child_ends (Signaled 2)) (built "make" [] None None 0)
         (at_prompt two_jobs 0)
       = Next tt w'
       /\ status (procs w') = 2 /\ signal (procs w') = 2.
Proof.
  split; [reflexivity|]. split; [reflexivity|].
  assert (Hopen : forall path flags,
             os_open (child_ends (Signaled 2)) path flags <> -1).
  { intros path [|]; discriminate. }
  destruct (foreground_command_waits (child_ends (Signaled 2))
              (built "make" [] None None 0) (at_prompt two_jobs 0)
              eq_refl eq_refl Hopen ltac:(discriminate))
    as (events & Hrun & _).
  eexists. split; [exact Hrun|]. split; reflexivity.
Defined.

(** X12.  A background launch that got past the opens of its redirects
    and finds no free slot, the counter being at or past the end of the PID
    array (or negative): the child has been forked and
    [Background process is <pid>] printed, and then the store into the array
    is out of bounds; nothing in the job table has been updated by then. *)
Theorem background_launch_overruns_full_table
    (os : os_model) (cmd : struct_command) (w : world) :
  ampersand cmd <> 0 ->
  0 < os_fork os ->
  redirects_open os cmd ->
  ~ (0 <= pidCount (procs w) < Z.of_nat (length (backgroundPids (procs w)))) ->
  exists events,
    otherCommands os cmd w
    = Stopped (Faulted OutOfBounds)
        {| procs := procs w; foreground := foreground w;
           trace := trace w ++ events |}
    /\ In (Fork (os_fork os)) events
    /\ last events
       = Some (Printf ("Background process is " +:+ decimal (os_fork os) +:+ nl)).
Proof.
  intros Hamp Hpid Hopen Hfull. destruct w as [[arr cnt st sg] fg tr].
  destruct cmd as [name args i o amp].
  cbn [procs backgroundPids pidCount ampersand] in *.
  pose proof (redirects_open_tests _ _ _ _ _ _ Hopen) as Htest.
  assert (Ha : (amp =? 0) = false) by now apply Z.eqb_neq.
  assert (Hn : (os_fork os <? 0) = false) by now apply Z.ltb_ge; lia.
  assert (Hz : (os_fork os =? 0) = false) by now apply Z.eqb_neq; lia.
  assert (Hb : (0 <=? cnt) && (cnt <? Z.of_nat (length arr)) = false).
  { apply andb_false_iff.
    destruct (Z.leb_spec 0 cnt); [|now left].
    destruct (Z.ltb_spec cnt (Z.of_nat (length arr))); [|now right].
    exfalso. apply Hfull. lia. }
  clear Hopen Hamp Hpid Hfull.
  unfold otherCommands, store_backgroundPid.
  cbn [inputFile outputFile ampersand command arguments].
  destruct i as [ipath|], o as [opath|], (amp =? 1); run_statements;
    use_tests; flatten_trace; (eexists; split; [reflexivity|]);
    (split; [cbn [In]; intuition | reflexivity]).
Qed.

(** [sleep 9 &] when both slots of a two-slot array are in use, on a
    system where [/dev/null/] cannot be opened. *)
Lemma background_launch_overruns_full_table_witness :
  ampersand (built "sleep" ["9"] None None 1) <> 0
  /\ redirects_open (cannot_open "/dev/null/") (built "sleep" ["9"] None None 1)
  /\ ~ (0 <= pidCount full_table
          < Z.of_nat (length (backgroundPids full_table)))
  /\ exists events,
       otherCommands (cannot_open "/dev/null/")
         (built "sleep" ["9"] None None 1) (at_prompt full_table 0)
       = Stopped (Faulted OutOfBounds)
           {| procs := full_table; foreground := 0; trace := [] ++ events |}.
Proof.
  assert (Hfull : ~ (0 <= pidCount full_table
                       < Z.of_nat (length (backgroundPids full_table)))).
  { cbn. lia. }
  assert (Hopen : redirects_open (cannot_open "/dev/null/")
                    (built "sleep" ["9"] None None 1)).
  { split; [intros path H; discriminate H | intros _ H; now contradiction H]. }
  split; [discriminate|]. split; [exact Hopen|]. split; [exact Hfull|].
  destruct (background_launch_overruns_full_table (cannot_open "/dev/null/")
              (built "sleep" ["9"] None None 1) (at_prompt full_table 0)
              ltac:(discriminate) eq_refl Hopen Hfull)
    as (events & Hrun & _).
  exists events. exact Hrun.
Defined.

(* ===================================================================== *)
(** * Further properties: what a whole pass of the loop leaves alone      *)
(* ===================================================================== *)

Section Preserves.
Variable R : world -> world -> Prop.
Hypothesis R_refl : forall w, R w w.
Hypothesis R_trans : forall a b c, R a b -> R b c -> R a c.

Lemma preserves_ret {A} (a : A) : preserves R (ret a).
Proof. intros w. apply R_refl. Qed.

Lemma preserves_return {A} : preserves R (@return_ A).
Proof. intros w. apply R_refl. Qed.

Lemma preserves_stop {A} (why : stop_reason) : preserves R (@stop A why).
Proof. intros w. apply R_refl. Qed.

Lemma preserves_get_processes : preserves R get_processes.
Proof. intros w. apply R_refl. Qed.

Lemma preserves_get_foreground : preserves R get_foreground.
Proof. intros w. apply R_refl. Qed.

Lemma preserves_bind {A B} (m : M A) (k : A -> M B) :
  preserves R m -> (forall a, preserves R (k a)) -> preserves R (bind m k).
Proof.
  intros Hm Hk w. unfold bind. specialize (Hm w).
  destruct (m w) as [a w'|w'|why w']; cbn [world_of] in *; try assumption.
  eapply R_trans; [exact Hm | apply Hk].
Qed.

Lemma preserves_call (m : M unit) : preserves R m -> preserves R (call m).
Proof.
  intros Hm w. unfold call. specialize (Hm w).
  destruct (m w); cbn [world_of] in *; assumption.
Qed.

Lemma preserves_for_loop (body : Z -> M unit) (count : nat) :
  (forall i, preserves R (body i)) ->
  forall first, preserves R (for_loop first count body).
Proof.
  intros Hbody. induction count as [|n IH]; intros first; cbn [for_loop].
  - apply preserves_ret.
  - apply preserves_bind; [apply Hbody | intros _; apply IH].
Qed.
End Preserves.

(** What [fork] returns is known: the rest of the function can be walked
    with that value. *)
Lemma preserves_bind_fork (R : world -> world -> Prop)
    (R_trans : forall a b c, R a b -> R b c -> R a c)
    {B} (os : os_model) (k : Z -> M B) :
  preserves R (emit (Fork (os_fork os))) ->
  preserves R (k (os_fork os)) ->
  preserves R (bind (sys_fork os) k).
Proof.
  intros He Hk w. specialize (He w).
  eapply R_trans; [exact He|]. apply Hk.
Qed.

(** One step through a statement, leaving the leaves to [leaf]. *)
Ltac preserves_step refl trans leaf :=
  match goal with
  | |- preserves _ (bind _ _) =>
      apply (preserves_bind _ trans); [|intros ?]
  | |- preserves _ (call _) => apply preserves_call
  | |- preserves _ (for_loop _ _ _) =>
      apply (preserves_for_loop _ refl trans); intros ?
  | |- preserves _ (ret _) => apply (preserves_ret _ refl)
  | |- preserves _ return_ => apply (preserves_return _ refl)
  | |- preserves _ (stop _) => apply (preserves_stop _ refl)
  | |- preserves _ get_processes => apply (preserves_get_processes _ refl)
  | |- preserves _ get_foreground => apply (preserves_get_foreground _ refl)
  | |- preserves _ (if ?b then _ else _) => destruct b
  | |- preserves _ (match ?x with _ => _ end) => destruct x
  | |- preserves _ (let _ := _ in _) => cbv zeta
  | |- preserves _ _ => progress leaf
  end.

Ltac preserves_walk refl trans leaf := repeat preserves_step refl trans leaf.

Ltac unfold_calls :=
  unfold sys_open, sys_fork, sys_dup2, sys_execvp, sys_chdir, sys_waitpid,
    sys_waitpid_WNOHANG, sys_kill, sys_close, sys_fcntl_cloexec, sigaction,
    sys_write, printf.

(** ** The flag *)

Lemma same_flag_refl (w : world) : same_flag w w.
Proof. reflexivity. Qed.

Lemma same_flag_trans (a b c : world) :
  same_flag a b -> same_flag b c -> same_flag a c.
Proof. unfold same_flag. congruence. Qed.

Ltac flag_leaf := solve [intros ?; reflexivity].

Ltac flag_walk :=
  unfold_calls;
  unfold set_status, set_signal, set_pidCount, load_backgroundPid,
    store_backgroundPid;
  preserves_walk same_flag_refl same_flag_trans flag_leaf.

Lemma flag_otherCommands (os : os_model) (cmd : struct_command) :
  preserves same_flag (otherCommands os cmd).
Proof. unfold otherCommands. flag_walk. Qed.

Lemma flag_parseInput (os : os_model) (input : option string) :
  preserves same_flag (parseInput os input).
Proof.
  unfold parseInput, dispatch.
  preserves_walk same_flag_refl same_flag_trans
    ltac:(first [ apply flag_otherCommands
                | unfold exitShell, cdShell, statusShell; flag_walk ]).
Qed.

Lemma flag_shell_iteration (os : os_model) (line : string) :
  preserves same_flag (shell_iteration os line).
Proof.
  unfold shell_iteration, reap.
  preserves_walk same_flag_refl same_flag_trans
    ltac:(first [ apply flag_parseInput | flag_walk ]).
Qed.

Lemma flag_shell_loop (stdin : list (os_model * string)) :
  preserves same_flag (shell_loop stdin).
Proof.
  induction stdin as [|[os line] stdin IH]; cbn [shell_loop].
  - apply (preserves_ret _ same_flag_refl).
  - apply (preserves_bind _ same_flag_trans);
      [apply flag_shell_iteration | intros loop].
    destruct (loop =? 0); [exact IH | apply (preserves_ret _ same_flag_refl)].
Qed.

(** X13.  Only the suspend handler writes [foreground]: a pass of the
    prompt loop, whatever the line and whatever the system answers, leaves
    the flag as it was, so does any number of passes, and a run of the
    program in which the signal never arrives ends with the flag at 0. *)
Theorem only_the_handler_writes_the_flag
    (os : os_model) (line : string) (stdin : list (os_model * string))
    (heap : struct_processes) (w : world) :
  foreground (world_of (shell_iteration os line w)) = foreground w
  /\ foreground (world_of (shell_loop stdin w)) = foreground w
  /\ foreground (world_of (run heap stdin)) = 0.
Proof.
  split; [apply flag_shell_iteration|]. split; [apply flag_shell_loop|].
  unfold run, main. unfold bind at 1. unfold set_foreground at 1.
  match goal with
  | |- foreground (world_of (?m ?w0)) = 0 =>
      change (foreground (world_of (m w0)) = foreground w0);
      generalize w0; change (preserves same_flag m)
  end.
  unfold shell. unfold_calls. unfold set_status.
  preserves_walk same_flag_refl same_flag_trans
    ltac:(first [ apply flag_shell_loop | flag_leaf ]).
Qed.

(** ** The PID array *)

Lemma same_pids_refl (w : world) : same_pids w w.
Proof. split; reflexivity. Qed.

Lemma same_pids_trans (a b c : world) :
  same_pids a b -> same_pids b c -> same_pids a c.
Proof. unfold same_pids. intros [? ?] [? ?]. split; congruence. Qed.

Ltac pids_leaf := solve [intros ?; split; reflexivity].

Ltac pids_walk :=
  unfold_calls;
  preserves_walk same_pids_refl same_pids_trans pids_leaf.

(** ** The trace *)

Lemma grows_by_refl (P : event -> Prop) (w : world) : grows_by P w w.
Proof. exists []. split; [now rewrite app_nil_r | constructor]. Qed.

Lemma grows_by_trans (P : event -> Prop) (a b c : world) :
  grows_by P a b -> grows_by P b c -> grows_by P a c.
Proof.
  intros (e1 & H1 & F1) (e2 & H2 & F2). exists (e1 ++ e2). split.
  - now rewrite H2, H1, app_assoc.
  - apply Forall_app. split; assumption.
Qed.

Lemma grows_by_emit (P : event -> Prop) (e : event) :
  P e -> preserves (grows_by P) (emit e).
Proof.
  intros He w. exists [e]. split; [reflexivity|].
  constructor; [exact He | constructor].
Qed.

(** A statement that writes memory only: the trace stays as it is. *)
Ltac silent_leaf :=
  solve [intros ?; eexists []; split;
         [cbn; now rewrite app_nil_r | constructor]].

Ltac report_leaf :=
  first [ apply grows_by_emit; unfold not_background_report;
          first [exact I | reflexivity]
        | silent_leaf ].

Ltac report_walk :=
  unfold_calls;
  preserves_walk (grows_by_refl not_background_report)
    (grows_by_trans not_background_report) report_leaf.

(** A foreground command adds no PID and prints no background report. *)
Lemma otherCommands_in_foreground (os : os_model) (cmd : struct_command) :
  ampersand cmd = 0 ->
  preserves same_pids (otherCommands os cmd)
  /\ preserves (grows_by not_background_report) (otherCommands os cmd).
Proof.
  intros Hamp. destruct cmd as [name args i o amp].
  cbn [ampersand] in Hamp. subst amp.
  unfold otherCommands.
  cbn [inputFile outputFile ampersand command arguments Z.eqb].
  split; [pids_walk | report_walk].
Qed.

Lemma builtins_add_no_job (os : os_model) (cmd : struct_command) :
  (preserves same_pids exitShell
   /\ preserves same_pids (cdShell os cmd)
   /\ preserves same_pids statusShell)
  /\ (preserves (grows_by not_background_report) exitShell
      /\ preserves (grows_by not_background_report) (cdShell os cmd)
      /\ preserves (grows_by not_background_report) statusShell).
Proof.
  unfold exitShell, cdShell, statusShell, load_backgroundPid.
  split; (split; [|split]); [pids_walk.. | | | ]; report_walk.
Qed.

Lemma build_command_foreground_only (fg : Z) (line : string)
    (c : struct_command) :
  fg <> 0 -> build_command fg line = inr c -> ampersand c = 0.
Proof.
  unfold build_command. intros Hfg Hrun.
  destruct (tokens line " ") as [|token rest]; [discriminate|].
  now pose proof (tokenize_loop_effect fg (length rest) rest _ c (le_n _) Hrun)
    as (_ & -> & _).
Qed.

Lemma dispatch_in_foreground (os : os_model) (c : struct_command) :
  ampersand c = 0 ->
  preserves same_pids (dispatch os c)
  /\ preserves (grows_by not_background_report) (dispatch os c).
Proof.
  intros Hamp.
  destruct (otherCommands_in_foreground os c Hamp) as [Hp Hr].
  destruct (builtins_add_no_job os c) as [(Hp1 & Hp2 & Hp3) (Hr1 & Hr2 & Hr3)].
  unfold dispatch. split.
  - repeat match goal with
           | |- preserves _ (if ?b then _ else _) => destruct b
           end;
      (apply (preserves_bind _ same_pids_trans);
       [assumption | intros _; apply (preserves_ret _ same_pids_refl)]).
  - repeat match goal with
           | |- preserves _ (if ?b then _ else _) => destruct b
           end;
      (apply (preserves_bind _ (grows_by_trans _));
       [assumption | intros _; apply (preserves_ret _ (grows_by_refl _))]).
Qed.

Lemma blank_echo_adds_no_job :
  preserves same_pids (printf nl ;; ret 0)
  /\ preserves (grows_by not_background_report) (printf nl ;; ret 0).
Proof. split; [pids_walk | report_walk]. Qed.

(** X14.  While foreground-only mode is on, no line can start a
    background job: whatever the line and whatever the system answers, a
    run of [parseInput] that does not end in a memory fault (so the line
    holds at most 512 arguments) leaves the PID array and its counter as
    they were and prints no [Background process is] line. *)
Theorem foreground_only_mode_adds_no_job
    (os : os_model) (input : option string) (w : world) :
  foreground w <> 0 ->
  ends_cleanly (parseInput os input w) ->
  backgroundPids (procs (world_of (parseInput os input w)))
  = backgroundPids (procs w)
  /\ pidCount (procs (world_of (parseInput os input w))) = pidCount (procs w)
  /\ exists events,
       trace (world_of (parseInput os input w)) = trace w ++ events
       /\ Forall not_background_report events.
Proof.
  intros Hfg _.
  assert (H : same_pids w (world_of (parseInput os input w))
              /\ grows_by not_background_report w
                   (world_of (parseInput os input w))).
  { unfold parseInput. destruct input as [input|];
      [|split; [apply same_pids_refl | apply grows_by_refl]].
    destruct (String.eqb (reads (strtok input " ")) nl).
    { destruct blank_echo_adds_no_job as [Hp Hr].
      split; [apply Hp | apply Hr]. }
    destruct (tok (strtok input " "));
      [|split; [apply same_pids_refl | apply grows_by_refl]].
    destruct (first_char_eq (reads (strtok input " ")) "#");
      [split; [apply same_pids_refl | apply grows_by_refl]|].
    destruct (expandPID (pidString (os_getpid os)) input) as [f|inputPID];
      [split; [apply same_pids_refl | apply grows_by_refl]|].
    unfold bind, get_foreground.
    destruct (build_command (foreground w) inputPID) as [f|c] eqn:Hb;
      [split; [apply same_pids_refl | apply grows_by_refl]|].
    pose proof (build_command_foreground_only _ _ _ Hfg Hb) as Hamp.
    destruct (dispatch_in_foreground os c Hamp) as [Hp Hr].
    split; [apply Hp | apply Hr]. }
  destruct H as [[Harr Hcnt] Hgrow]. auto.
Qed.

(** [sleep 5 &] typed while the mode is on. *)
Lemma foreground_only_mode_adds_no_job_witness :
  foreground (at_prompt two_jobs 1) <> 0
  /\ ends_cleanly (parseInput calm (Some "sleep 5 &") (at_prompt two_jobs 1))
  /\ backgroundPids (procs (world_of (parseInput calm (Some "sleep 5 &")
                                        (at_prompt two_jobs 1))))
     = backgroundPids two_jobs
  /\ pidCount (procs (world_of (parseInput calm (Some "sleep 5 &")
                                  (at_prompt two_jobs 1)))) = 2.
Proof.
  assert (H : foreground (at_prompt two_jobs 1) <> 0) by discriminate.
  assert (Hclean : ends_cleanly (parseInput calm (Some "sleep 5 &")
                                   (at_prompt two_jobs 1))).
  { vm_compute. exact I. }
  split; [exact H|]. split; [exact Hclean|].
  destruct (foreground_only_mode_adds_no_job calm (Some "sleep 5 &")
              (at_prompt two_jobs 1) H Hclean) as (Harr & Hcnt & _).
  split; [exact Harr | exact Hcnt].
Defined.

(** ** The interrupt signal *)

Ltac sigint_leaf :=
  first [ apply grows_by_emit; unfold not_sigint_default; discriminate
        | silent_leaf ].

Ltac sigint_walk :=
  unfold_calls;
  preserves_walk (grows_by_refl not_sigint_default)
    (grows_by_trans not_sigint_default) sigint_leaf.

(** Outside the child, [otherCommands] never sets the interrupt signal to
    its default disposition. *)
Lemma sigint_otherCommands (os : os_model) (cmd : struct_command) :
  os_fork os <> 0 ->
  preserves (grows_by not_sigint_default) (otherCommands os cmd).
Proof.
  intros Hfork. apply Z.eqb_neq in Hfork.
  unfold otherCommands, store_backgroundPid.
  unfold sys_open, sys_dup2, sys_execvp, sys_chdir, sys_waitpid,
    sys_waitpid_WNOHANG, sys_kill, sys_close, sys_fcntl_cloexec, sigaction,
    sys_write, printf.
  repeat first
    [ apply (preserves_bind_fork _ (grows_by_trans not_sigint_default));
      [sigint_leaf|]
    | match goal with
      | |- preserves _ (if os_fork _ =? 0 then _ else _) => rewrite Hfork
      end
    | preserves_step (grows_by_refl not_sigint_default)
        (grows_by_trans not_sigint_default) sigint_leaf ].
Qed.

Lemma sigint_parseInput (os : os_model) (input : option string) :
  os_fork os <> 0 ->
  preserves (grows_by not_sigint_default) (parseInput os input).
Proof.
  intros Hfork. unfold parseInput, dispatch.
  preserves_walk (grows_by_refl not_sigint_default)
    (grows_by_trans not_sigint_default)
    ltac:(first [ apply sigint_otherCommands; exact Hfork
                | unfold exitShell, cdShell, statusShell, load_backgroundPid;
                  sigint_walk ]).
Qed.

Lemma sigint_shell_iteration (os : os_model) (line : string) :
  os_fork os <> 0 ->
  preserves (grows_by not_sigint_default) (shell_iteration os line).
Proof.
  intros Hfork. unfold shell_iteration, reap, load_backgroundPid.
  preserves_walk (grows_by_refl not_sigint_default)
    (grows_by_trans not_sigint_default)
    ltac:(first [ apply sigint_parseInput; exact Hfork
                | unfold set_status, set_signal; sigint_walk ]).
Qed.

Lemma sigint_shell_loop (stdin : list (os_model * string)) :
  Forall (fun entry => os_fork (fst entry) <> 0) stdin ->
  preserves (grows_by not_sigint_default) (shell_loop stdin).
Proof.
  induction 1 as [|[os line] stdin Hos _ IH]; cbn [shell_loop].
  - apply (preserves_ret _ (grows_by_refl _)).
  - apply (preserves_bind _ (grows_by_trans _));
      [apply sigint_shell_iteration; exact Hos | intros loop].
    destruct (loop =? 0); [exact IH | apply (preserves_ret _ (grows_by_refl _))].
Qed.

(** X15.  In the shell's own process, that is as long as no [fork]
    returns 0, the interrupt signal is set to be ignored first of all, the
    suspend handler is installed next, and the interrupt signal is never
    given its default disposition afterwards, whatever is typed and
    whatever the system answers. *)
Theorem shell_always_ignores_sigint
    (heap : struct_processes) (stdin : list (os_model * string)) :
  Forall (fun entry => os_fork (fst entry) <> 0) stdin ->
  exists events,
    trace (world_of (run heap stdin))
    = Sigaction SIGINT SIG_IGN :: Sigaction SIGTSTP Handler_SIGTSTP :: events
    /\ Forall not_sigint_default events.
Proof.
  intros Hstdin. unfold run, main.
  unfold bind at 1. unfold set_foreground at 1.
  unfold bind at 1. unfold sigaction at 1. unfold emit at 1.
  unfold bind at 1. unfold sigaction at 1. unfold emit at 1.
  cbn [procs foreground trace app].
  match goal with
  | |- exists events, trace (world_of (?m ?w0)) = _ /\ _ =>
      assert (H : preserves (grows_by not_sigint_default) m)
  end.
  { unfold shell.
    preserves_walk (grows_by_refl not_sigint_default)
      (grows_by_trans not_sigint_default)
      ltac:(first [ apply sigint_shell_loop; exact Hstdin
                  | unfold set_status; sigint_walk ]). }
  match goal with
  | |- exists events, trace (world_of (?m ?w0)) = _ /\ _ =>
      destruct (H w0) as (events & Htrace & Hall)
  end.
  exists events. split; [exact Htrace | exact Hall].
Qed.

(** Two lines typed at a shell that is the parent of every fork. *)
Lemma shell_always_ignores_sigint_witness :
  Forall (fun entry => os_fork (fst entry) <> 0)
    [(calm, "ls" +:+ nl); (calm, "exit" +:+ nl)]
  /\ exists events,
       trace (world_of (run (fresh_heap 0)
                          [(calm, "ls" +:+ nl); (calm, "exit" +:+ nl)]))
       = Sigaction SIGINT SIG_IGN :: Sigaction SIGTSTP Handler_SIGTSTP :: events
       /\ Forall not_sigint_default events.
Proof.
  assert (H : Forall (fun entry => os_fork (fst entry) <> 0)
                [(calm, "ls" +:+ nl); (calm, "exit" +:+ nl)]).
  { repeat constructor; discriminate. }
  split; [exact H|].
  exact (shell_always_ignores_sigint (fresh_heap 0) _ H).
Defined.

(* ===================================================================== *)
(** * Further properties: the sweep and the PID array                     *)
(* ===================================================================== *)

Lemma fold_reaper_status_none (os : os_model) (pids : list Z)
    (p : struct_processes) :
  Forall (fun pid => os_waitpid_WNOHANG os pid = None) pids ->
  fold_left (reaper_status os) pids p = p
  /\ flat_map (reaper_report os) pids
     = map (fun pid => Waitpid pid WNOHANG None) pids.
Proof.
  induction 1 as [|pid pids Hpid _ [IHs IHr]]; [split; reflexivity|].
  cbn [fold_left flat_map map]. unfold reaper_status at 2, reaper_report at 1.
  rewrite Hpid, IHs, IHr. split; reflexivity.
Qed.

(** X16.  A sweep during which no tracked PID has ended polls each of
    them once, in order, prints nothing and leaves the job table, stored
    status included, exactly as it was. *)
Theorem sweep_without_ended_job (os : os_model) (w : world) :
  table_ok (procs w) ->
  Forall (fun pid => os_waitpid_WNOHANG os pid = None) (tracked (procs w)) ->
  reap os w
  = Next tt (logged w (map (fun pid => Waitpid pid WNOHANG None)
                         (tracked (procs w)))).
Proof.
  intros Hok Hnone. rewrite (reap_sweep os w Hok).
  destruct (fold_reaper_status_none os _ (procs w) Hnone) as [-> ->].
  reflexivity.
Qed.

(** The sweep over PIDs 41 and 42, both still running. *)
Lemma sweep_without_ended_job_witness :
  table_ok (procs (at_prompt two_jobs 0))
  /\ Forall (fun pid => os_waitpid_WNOHANG calm pid = None)
       (tracked (procs (at_prompt two_jobs 0)))
  /\ reap calm (at_prompt two_jobs 0)
     = Next tt (logged (at_prompt two_jobs 0)
                  [Waitpid 41 WNOHANG None; Waitpid 42 WNOHANG None]).
Proof.
  assert (Hok : table_ok (procs (at_prompt two_jobs 0))).
  { unfold table_ok. cbn. lia. }
  assert (Hnone : Forall (fun pid => os_waitpid_WNOHANG calm pid = None)
                    (tracked (procs (at_prompt two_jobs 0)))).
  { repeat constructor. }
  split; [exact Hok|]. split; [exact Hnone|].
  exact (sweep_without_ended_job calm (at_prompt two_jobs 0) Hok Hnone).
Defined.

Lemma reaper_status_ended (os : os_model) (p : struct_processes) (pid : Z)
    (st : wait_status) :
  os_waitpid_WNOHANG os pid = Some st ->
  status (reaper_status os p pid)
  = match st with Signaled _ => 2 | Exited code => code end
  /\ signal (reaper_status os p pid)
     = match st with Signaled n => n | Exited _ => signal p end.
Proof.
  intros H. unfold reaper_status. rewrite H. destruct st; split; reflexivity.
Qed.

(** X17.  The end of a background job overwrites the stored status: after
    a sweep, the status is the one of the last tracked PID, in insertion
    order, that the sweep found ended: its exit code, or 2 with its signal
    number, in which case a [status] entered next prints
    [terminated by signal <n>] for a job that never ran in the
    foreground. *)
Theorem last_ended_job_sets_status
    (os : os_model) (w : world) (before after : list Z) (pid : Z)
    (st : wait_status) :
  table_ok (procs w) ->
  tracked (procs w) = before ++ pid :: after ->
  os_waitpid_WNOHANG os pid = Some st ->
  Forall (fun later => os_waitpid_WNOHANG os later = None) after ->
  exists w',
    reap os w = Next tt w'
    /\ status (procs w')
       = match st with Signaled _ => 2 | Exited code => code end
    /\ (forall n, st = Signaled n ->
        signal (procs w') = n
        /\ statusShell w'
           = Next tt (logged w' [Printf ("terminated by signal "
                                         +:+ decimal n +:+ nl)])).
Proof.
  intros Hok Htracked Hpid Hafter.
  eexists. split; [apply (reap_sweep os w Hok)|].
  cbn [procs]. rewrite Htracked, fold_left_app. cbn [fold_left].
  destruct (fold_reaper_status_none os after
              (reaper_status os (fold_left (reaper_status os) before (procs w)) pid)
              Hafter) as [Hfold _].
  destruct (reaper_status_ended os
              (fold_left (reaper_status os) before (procs w)) pid st Hpid)
    as [Hst Hsg].
  split; [now rewrite Hfold|].
  intros n ->. split; [now rewrite Hfold|].
  rewrite statusShell_prints. cbn [procs]. rewrite Hfold, Hst, Hsg.
  reflexivity.
Qed.

(** The sweep finds that 41, the first of two jobs, was killed by signal
    9 while 42 still runs. *)
Lemma last_ended_job_sets_status_witness :
  table_ok (procs (at_prompt two_jobs 0))
  /\ tracked (procs (at_prompt two_jobs 0)) = [] ++ 41 :: [42]
  /\ os_waitpid_WNOHANG (has_ended 41 (Signaled 9)) 41 = Some (Signaled 9)
  /\ exists w',
       reap (has_ended 41 (Signaled 9)) (at_prompt two_jobs 0) = Next tt w'
       /\ status (procs w') = 2.
Proof.
  assert (Hok : table_ok (procs (at_prompt two_jobs 0))).
  { unfold table_ok. cbn. lia. }
  assert (Hafter : Forall (fun later =>
                     os_waitpid_WNOHANG (has_ended 41 (Signaled 9)) later = None)
                     [42]).
  { repeat constructor. }
  split; [exact Hok|]. split; [reflexivity|]. split; [reflexivity|].
  destruct (last_ended_job_sets_status (has_ended 41 (Signaled 9))
              (at_prompt two_jobs 0) [] [42] 41 (Signaled 9)
              Hok eq_refl eq_refl Hafter) as (w' & Hrun & Hst & _).
  exists w'. split; [exact Hrun | exact Hst].
Defined.

(** A loop that runs past the end of the array stops there. *)
Lemma for_loop_past_the_end (step : Z -> M unit) (g : Z -> world -> world) :
  (forall pid w, step pid w = Next tt (g pid w)) ->
  (forall pid w, backgroundPids (procs (g pid w)) = backgroundPids (procs w)) ->
  forall (n k : nat) (w : world),
    (k <= length (backgroundPids (procs w)) < k + n)%nat ->
    for_loop (Z.of_nat k) n (fun i => pid <- load_backgroundPid i ;; step pid) w
    = Stopped (Faulted OutOfBounds)
        (fold_left (fun w pid => g pid w)
           (drop k (backgroundPids (procs w))) w).
Proof.
  intros Hstep Harr. induction n as [|n IH]; intros k w Hle; [lia|].
  cbn [for_loop]. unfold bind.
  destruct (backgroundPids (procs w) !! k) as [pid|] eqn:Hpid.
  - rewrite (load_backgroundPid_slot _ _ _ Hpid), Hstep.
    replace (Z.of_nat k + 1) with (Z.of_nat (S k)) by lia.
    pose proof (lookup_lt_Some _ _ _ Hpid) as Hlt.
    rewrite IH by (rewrite Harr; lia).
    rewrite Harr, (drop_S _ _ _ Hpid). reflexivity.
  - unfold load_backgroundPid, bind, get_processes.
    destruct (Z.ltb_spec (Z.of_nat k) 0) as [Hneg|_]; [lia|].
    rewrite Nat2Z.id, Hpid.
    apply lookup_ge_None in Hpid. rewrite drop_ge by exact Hpid.
    reflexivity.
Qed.

(** X18.  A counter that points past the end of the PID array (the
    struct is never initialised but for its status) makes both loops over
    the array run off its end: [exit] has sent SIGKILL to every slot of the
    array by then, and the sweep has polled every slot.  A counter that is
    zero or negative makes [exit] kill nothing. *)
Theorem loops_run_off_a_wild_counter (os : os_model) (w : world) :
  Z.of_nat (length (backgroundPids (procs w))) < pidCount (procs w) ->
  exitShell w
  = Stopped (Faulted OutOfBounds) (logged w (kills (backgroundPids (procs w))))
  /\ reap os w
     = Stopped (Faulted OutOfBounds)
         {| procs := fold_left (reaper_status os) (backgroundPids (procs w))
                       (procs w);
            foreground := foreground w;
            trace := trace w
                     ++ flat_map (reaper_report os) (backgroundPids (procs w)) |}
  /\ (forall w0, pidCount (procs w0) <= 0 -> exitShell w0 = Next tt w0).
Proof.
  intros Hwild.
  assert (Hrange : (0 <= length (backgroundPids (procs w))
                    < 0 + Z.to_nat (pidCount (procs w)))%nat) by lia.
  split; [|split].
  - unfold exitShell, call.
    unfold bind at 1. unfold get_processes at 1. unfold bind at 1.
    change 0 with (Z.of_nat 0).
    rewrite (for_loop_past_the_end (fun pid => sys_kill pid SIGKILL)
               (fun pid w => logged w [Kill pid SIGKILL]));
      [| reflexivity | reflexivity | exact Hrange].
    rewrite drop_0, fold_kills. reflexivity.
  - unfold reap. unfold bind at 1. unfold get_processes at 1.
    change 0 with (Z.of_nat 0).
    pose proof (for_loop_past_the_end _ (reap_one os) (reap_step os)) as Hloop.
    rewrite Hloop.
    + now rewrite drop_0, fold_reap_one.
    + intros pid w0. apply reaper_status_array.
    + exact Hrange.
  - intros w0 Hle. unfold exitShell, call, bind, get_processes.
    replace (Z.to_nat (pidCount (procs w0))) with 0%nat by lia.
    reflexivity.
Qed.

(** [exit] with a counter of 7 over an array of two slots. *)
Lemma loops_run_off_a_wild_counter_witness :
  Z.of_nat (length (backgroundPids (procs (at_prompt wild_counter 0))))
  < pidCount (procs (at_prompt wild_counter 0))
  /\ exitShell (at_prompt wild_counter 0)
     = Stopped (Faulted OutOfBounds)
         (logged (at_prompt wild_counter 0) [Kill 41 SIGKILL; Kill 42 SIGKILL]).
Proof.
  assert (H : Z.of_nat (length (backgroundPids (procs (at_prompt wild_counter 0))))
              < pidCount (procs (at_prompt wild_counter 0))).
  { reflexivity. }
  split; [exact H|].
  exact (proj1 (loops_run_off_a_wild_counter calm (at_prompt wild_counter 0) H)).
Defined.

(* ===================================================================== *)
(** * Further properties: cd                                              *)
(* ===================================================================== *)

Lemma span_out_free (delim s : string) :
  free_of delim s = true -> span_out delim s = (s, EmptyString).
Proof.
  induction s as [|c s IH]; intros H; [reflexivity|].
  cbn [free_of] in H. apply andb_prop in H as [Hc Hs].
  apply negb_true_iff in Hc. cbn [span_out]. now rewrite Hc, (IH Hs).
Qed.

(** A proper token is the only token of itself. *)
Lemma tokens_of_a_token (delim t : string) :
  proper_token delim t -> tokens_from delim t None = [t].
Proof.
  intros [Hne Hfree]. destruct t as [|c t]; [contradiction|].
  cbn [free_of] in Hfree. apply andb_prop in Hfree as [Hc Ht].
  apply negb_true_iff in Hc. cbn [tokens_from]. rewrite Hc.
  rewrite tokens_from_token, (span_out_free _ _ Ht). reflexivity.
Qed.

(** X19.  The line [cd <path>], for a path that is one token, holds no
    [$] and is none of [<], [>], [&]: the shell calls [chdir] on the path
    once, prints [Error finding this directory.] exactly when the call
    answers -1, forks nothing, and leaves the job table as it was.  The
    bare line [cd] calls [chdir] on what [getenv] gave for HOME and prints
    nothing even when that call fails. *)
Theorem cd_changes_directory_once (os : os_model) (path : string) (w : world) :
  proper_token " " path ->
  dollar_free path = true ->
  ordinary path ->
  parseInput os (Some ("cd " +:+ path)) w
  = Next 0 (logged w
      (Chdir (Some path) (os_chdir os (Some path))
       :: if os_chdir os (Some path) =? -1
          then [Printf ("Error finding this directory." +:+ nl)]
          else []))
  /\ parseInput os (Some "cd") w
     = Next 0 (logged w [Chdir (os_getenv_HOME os)
                           (os_chdir os (os_getenv_HOME os))]).
Proof.
  intros Hproper Hfree Hord. split.
  - unfold parseInput.
    change (strtok ("cd " +:+ path) " ")
      with {| tok := Some "cd"; reads := "cd"; saved := path |}.
    cbn [tok reads]. change (String.eqb "cd" nl) with false.
    change (first_char_eq "cd" "#") with false. cbv iota.
    rewrite expandPID_no_marker by (apply strstr_dollar_free; exact Hfree).
    unfold bind at 1. unfold get_foreground.
    assert (Hbuild : build_command (foreground w) ("cd " +:+ path)
                     = inr (built "cd" [path] None None 0)).
    { unfold build_command, tokens.
      change (tokens_from " " ("cd " +:+ path) None)
        with ("cd" :: tokens_from " " path None).
      rewrite (tokens_of_a_token _ _ Hproper).
      change {| command := "cd"; arguments := ["cd"]; inputFile := None;
                outputFile := None; ampersand := 0 |}
        with (built "cd" [] None None 0).
      rewrite tokenize_loop_ordinary_end;
        [reflexivity | constructor; [exact Hord|constructor] | cbn; lia]. }
    rewrite Hbuild. unfold dispatch, built.
    cbn [command String.eqb Ascii.eqb Bool.eqb].
    unfold cdShell. cbn [arguments].
    change (["cd"; path] !! 1%nat) with (Some path).
    cbv beta iota zeta delta [call bind sys_chdir printf emit ret logged].
    destruct (os_chdir os (Some path) =? -1);
      cbn [procs foreground trace]; rewrite <- ?app_assoc; reflexivity.
  - unfold parseInput.
    change (strtok "cd" " ")
      with {| tok := Some "cd"; reads := "cd"; saved := EmptyString |}.
    cbn [tok reads]. change (String.eqb "cd" nl) with false.
    change (first_char_eq "cd" "#") with false. cbv iota.
    rewrite expandPID_no_marker by reflexivity.
    reflexivity.
Qed.

(** [cd /tmp], the change of directory succeeding. *)
Lemma cd_changes_directory_once_witness :
  proper_token " " "/tmp" /\ dollar_free "/tmp" = true /\ ordinary "/tmp"
  /\ parseInput calm (Some "cd /tmp") (at_prompt two_jobs 0)
     = Next 0 (logged (at_prompt two_jobs 0) [Chdir (Some "/tmp") 0]).
Proof.
  assert (Hp : proper_token " " "/tmp") by (split; [discriminate|reflexivity]).
  assert (Ho : ordinary "/tmp") by (repeat split; discriminate).
  split; [exact Hp|]. split; [reflexivity|]. split; [exact Ho|].
  exact (proj1 (cd_changes_directory_once calm "/tmp"
                  (at_prompt two_jobs 0) Hp eq_refl Ho)).
Defined.

(* ===================================================================== *)
(** * Further properties: the PID list over a whole pass                  *)
(* ===================================================================== *)

Lemma pids_extend_refl (w : world) : pids_extend w w.
Proof.
  intros Hok. split; [exact Hok|]. exists [], [].
  now rewrite !app_nil_r.
Qed.

Lemma pids_extend_trans (a b c : world) :
  pids_extend a b -> pids_extend b c -> pids_extend a c.
Proof.
  intros Hab Hbc Hok. destruct (Hab Hok) as (Hb & m1 & e1 & H1 & T1 & F1).
  destruct (Hbc Hb) as (Hc & m2 & e2 & H2 & T2 & F2). split; [exact Hc|].
  exists (m1 ++ m2), (e1 ++ e2).
  rewrite H2, H1, T2, T1, List.filter_app, map_app, F1, F2.
  now rewrite <- !app_assoc.
Qed.

(** ** Runs that end without a memory fault *)

Lemma clean_bind (R : world -> world -> Prop)
    (R_trans : forall a b c, R a b -> R b c -> R a c)
    {A B} (m : M A) (k : A -> M B) :
  preserves_clean R m -> (forall a, preserves_clean R (k a)) ->
  preserves_clean R (bind m k).
Proof.
  intros Hm Hk w. unfold bind. specialize (Hm w).
  destruct (m w) as [a w'|w'|why w']; cbn [world_of] in *.
  - intros Hc. eapply R_trans; [apply Hm; exact I | now apply Hk].
  - intros _. apply Hm. exact I.
  - intros Hc. apply Hm. exact Hc.
Qed.

Lemma clean_call (R : world -> world -> Prop) (m : M unit) :
  preserves_clean R m -> preserves_clean R (call m).
Proof.
  intros Hm w. unfold call. specialize (Hm w).
  destruct (m w) as [a w'|w'|why w']; cbn [world_of] in *.
  - intros _. apply Hm. exact I.
  - intros _. apply Hm. exact I.
  - intros Hc. apply Hm. exact Hc.
Qed.

(** Events that are no background report leave nothing in the filter. *)
Lemma quiet_filter (events : list event) :
  Forall not_background_report events ->
  List.filter is_background_report events = [].
Proof.
  induction 1 as [|e events He _ IH]; [reflexivity|].
  cbn [List.filter]. destruct e; cbn [is_background_report]; try exact IH.
  cbn [not_background_report] in He. now rewrite He.
Qed.

(** A statement that leaves the PID array alone and prints no background
    report. *)
Lemma extend_of_quiet {A} (m : M A) :
  preserves same_pids m ->
  preserves (grows_by not_background_report) m ->
  preserves_clean pids_extend m.
Proof.
  intros Hp Hg w _ Hok. destruct (Hp w) as [Harr Hcnt].
  destruct (Hg w) as (events & Ht & Hall).
  split; [unfold table_ok; now rewrite Harr, Hcnt|].
  exists [], events. split; [|split].
  - unfold tracked. now rewrite Harr, Hcnt, app_nil_r.
  - exact Ht.
  - now apply quiet_filter.
Qed.

(** Lines 374-386: the report is printed, the new PID comes after the
    tracked ones, the counter moves on. *)
Lemma pids_extend_launch (pid : Z) :
  preserves_clean pids_extend
    (printf ("Background process is " +:+ decimal pid +:+ nl) ;;
     processes <- get_processes ;;
     let backgroundIndex := pidCount processes in
     store_backgroundPid backgroundIndex pid ;;
     set_pidCount (pidCount processes + 1) ;;
     sigaction SIGTSTP Handler_SIGTSTP).
Proof.
  intros w Hclean Hok. destruct w as [[arr cnt st sg] fg tr].
  unfold table_ok in Hok. cbn [procs backgroundPids pidCount] in Hok.
  revert Hclean.
  cbv beta iota zeta delta
    [store_backgroundPid bind get_processes put_processes set_pidCount stop
     printf sigaction emit].
  cbn [procs backgroundPids pidCount status signal foreground trace].
  destruct (Z.leb_spec 0 cnt) as [_|Hneg]; [|lia].
  destruct (Z.ltb_spec cnt (Z.of_nat (length arr))) as [Hlt|Hge];
    cbn [andb]; [intros _ | intros H; contradiction H].
  cbn [world_of procs backgroundPids pidCount trace].
  split; [unfold table_ok; cbn [backgroundPids pidCount];
          rewrite length_insert; lia|].
  exists [pid],
    [background_report pid; Sigaction SIGTSTP Handler_SIGTSTP].
  split; [|split].
  - unfold tracked. cbn [procs backgroundPids pidCount].
    replace (Z.to_nat (cnt + 1)) with (S (Z.to_nat cnt)) by lia.
    rewrite (take_S_r _ _ pid) by (apply list_lookup_insert_eq; lia).
    now rewrite take_insert_ge by lia.
  - now rewrite <- app_assoc.
  - reflexivity.
Qed.

Ltac extend_leaf :=
  solve [ apply extend_of_quiet; [pids_leaf | report_leaf] ].

Ltac extend_step leaf :=
  match goal with
  | |- preserves_clean _ (bind (printf (_ +:+ decimal _ +:+ _)) _) =>
      apply pids_extend_launch
  | |- preserves_clean _ (bind _ _) =>
      apply (clean_bind _ pids_extend_trans); [|intros ?]
  | |- preserves_clean _ (call _) => apply clean_call
  | |- preserves_clean _ (if ?b then _ else _) => destruct b
  | |- preserves_clean _ (match ?x with _ => _ end) => destruct x
  | |- preserves_clean _ (let _ := _ in _) => cbv zeta
  | |- preserves_clean _ _ => progress leaf
  end.

Lemma pids_extend_otherCommands (os : os_model) (cmd : struct_command) :
  preserves_clean pids_extend (otherCommands os cmd).
Proof.
  unfold otherCommands.
  unfold sys_open, sys_fork, sys_dup2, sys_execvp, sys_waitpid, sys_close,
    sys_fcntl_cloexec.
  repeat extend_step ltac:(unfold printf, sigaction; extend_leaf).
Qed.

Lemma reaper_reports_are_no_launch (os : os_model) (pids : list Z) :
  List.filter is_background_report (flat_map (reaper_report os) pids) = [].
Proof.
  induction pids as [|pid pids IH]; [reflexivity|].
  cbn [flat_map]. rewrite List.filter_app, IH, app_nil_r.
  unfold reaper_report.
  destruct (os_waitpid_WNOHANG os pid) as [[code|sig]|]; reflexivity.
Qed.

Lemma pids_extend_reap (os : os_model) : preserves_clean pids_extend (reap os).
Proof.
  intros w _ Hok. rewrite (reap_sweep os w Hok). cbn [world_of procs trace].
  destruct (fold_reaper_status_array os (tracked (procs w)) (procs w))
    as [Harr Hcnt].
  split; [unfold table_ok; now rewrite Harr, Hcnt|].
  exists [], (flat_map (reaper_report os) (tracked (procs w))).
  split; [|split].
  - unfold tracked at 1. now rewrite Harr, Hcnt, app_nil_r.
  - reflexivity.
  - apply reaper_reports_are_no_launch.
Qed.

Lemma pids_extend_builtins (os : os_model) (cmd : struct_command) :
  preserves_clean pids_extend exitShell
  /\ preserves_clean pids_extend (cdShell os cmd)
  /\ preserves_clean pids_extend statusShell.
Proof.
  destruct (builtins_add_no_job os cmd) as [(Hp1 & Hp2 & Hp3) (Hr1 & Hr2 & Hr3)].
  repeat split; apply extend_of_quiet; assumption.
Qed.

Lemma pids_extend_parseInput (os : os_model) (input : option string) :
  preserves_clean pids_extend (parseInput os input).
Proof.
  unfold parseInput, dispatch.
  repeat extend_step
    ltac:(first [ apply pids_extend_otherCommands
                | match goal with
                  | c : struct_command |- _ =>
                      first [ apply (proj1 (pids_extend_builtins os c))
                            | apply (proj1 (proj2 (pids_extend_builtins os c)))
                            | apply (proj2 (proj2 (pids_extend_builtins os c))) ]
                  end
                | unfold printf; extend_leaf ]).
Qed.

Lemma pids_extend_shell_iteration (os : os_model) (line : string) :
  preserves_clean pids_extend (shell_iteration os line).
Proof.
  unfold shell_iteration.
  repeat extend_step
    ltac:(first [ apply pids_extend_parseInput
                | apply pids_extend_reap
                | unfold printf; extend_leaf ]).
Qed.

Lemma pids_extend_shell_loop (stdin : list (os_model * string)) :
  preserves_clean pids_extend (shell_loop stdin).
Proof.
  induction stdin as [|[os line] stdin IH]; cbn [shell_loop].
  - extend_leaf.
  - apply (clean_bind _ pids_extend_trans);
      [apply pids_extend_shell_iteration | intros loop].
    destruct (loop =? 0); [exact IH | extend_leaf].
Qed.

(** X20.  Over a whole pass of the prompt loop, and over any number of
    passes, whatever is typed and whatever the system answers, as long as
    the run does not end in a memory fault: if the counter was inside the
    array it still is, and the tracked PIDs are the ones tracked before, in
    the same order, followed by exactly the PIDs announced since by a
    [Background process is] line, in the order of these lines.  No PID is
    ever dropped or moved, and none is added or announced alone. *)
Theorem tracked_pids_only_grow
    (os : os_model) (line : string) (stdin : list (os_model * string))
    (w : world) :
  table_ok (procs w) ->
  (ends_cleanly (shell_iteration os line w) ->
   table_ok (procs (world_of (shell_iteration os line w)))
   /\ exists more events,
        tracked (procs (world_of (shell_iteration os line w)))
        = tracked (procs w) ++ more
        /\ trace (world_of (shell_iteration os line w)) = trace w ++ events
        /\ List.filter is_background_report events
           = map background_report more)
  /\ (ends_cleanly (shell_loop stdin w) ->
      table_ok (procs (world_of (shell_loop stdin w)))
      /\ exists more events,
           tracked (procs (world_of (shell_loop stdin w)))
           = tracked (procs w) ++ more
           /\ trace (world_of (shell_loop stdin w)) = trace w ++ events
           /\ List.filter is_background_report events
              = map background_report more).
Proof.
  intros Hok. split; intros Hclean.
  - exact (pids_extend_shell_iteration os line w Hclean Hok).
  - exact (pids_extend_shell_loop stdin w Hclean Hok).
Qed.

(** Two background jobs started from an empty table, on a system where
    [/dev/null/] cannot be opened. *)
Lemma tracked_pids_only_grow_witness :
  table_ok (procs (at_prompt (fresh_heap 0) 0))
  /\ ends_cleanly
       (shell_loop [(cannot_open "/dev/null/", "sleep 5 &" +:+ nl);
                    (cannot_open "/dev/null/", "sleep 6 &" +:+ nl)]
          (at_prompt (fresh_heap 0) 0))
  /\ exists more events,
       tracked (procs (world_of
                  (shell_loop [(cannot_open "/dev/null/", "sleep 5 &" +:+ nl);
                               (cannot_open "/dev/null/", "sleep 6 &" +:+ nl)]
                     (at_prompt (fresh_heap 0) 0))))
       = tracked (procs (at_prompt (fresh_heap 0) 0)) ++ more
       /\ trace (world_of
                   (shell_loop [(cannot_open "/dev/null/", "sleep 5 &" +:+ nl);
                                (cannot_open "/dev/null/", "sleep 6 &" +:+ nl)]
                      (at_prompt (fresh_heap 0) 0)))
          = trace (at_prompt (fresh_heap 0) 0) ++ events
       /\ List.filter is_background_report events
          = map background_report more.
Proof.
  assert (Hok : table_ok (procs (at_prompt (fresh_heap 0) 0))).
  { unfold table_ok. cbn. lia. }
  assert (Hclean : ends_cleanly
            (shell_loop [(cannot_open "/dev/null/", "sleep 5 &" +:+ nl);
                         (cannot_open "/dev/null/", "sleep 6 &" +:+ nl)]
               (at_prompt (fresh_heap 0) 0))).
  { vm_compute. exact I. }
  split; [exact Hok|]. split; [exact Hclean|].
  exact (proj2 (proj2 (tracked_pids_only_grow calm EmptyString
                         [(cannot_open "/dev/null/", "sleep 5 &" +:+ nl);
                          (cannot_open "/dev/null/", "sleep 6 &" +:+ nl)]
                         (at_prompt (fresh_heap 0) 0) Hok) Hclean)).
Defined.

(* ===================================================================== *)
(** * Further properties: status, the empty line, the end of the loop     *)
(* ===================================================================== *)

(** X21.  What [status] prints straight after a foreground command
    without redirects: [terminated by signal <s>] when the command was
    killed by signal [s]; [exit value 0] or [exit value 1] when it ended
    with code 0 or 1; and for every other exit code the line
    [terminated by signal] followed by the signal field as it was before
    the command ran. *)
Theorem status_after_a_foreground_command
    (os : os_model) (name : string) (args : list string) (w : world) :
  0 < os_fork os ->
  exists w' line,
    otherCommands os (built name args None None 0) w = Next tt w'
    /\ statusShell w' = Next tt (logged w' [Printf line])
    /\ line = match os_waitpid os (os_fork os) with
              | Signaled s => "terminated by signal " +:+ decimal s +:+ nl
              | Exited 0 => "exit value 0" +:+ nl
              | Exited 1 => "exit value 1" +:+ nl
              | Exited _ =>
                  "terminated by signal " +:+ decimal (signal (procs w)) +:+ nl
              end.
Proof.
  intros Hpid.
  destruct (otherCommands_foreground os name args w Hpid)
    as (w' & Hrun & _ & _ & Hst).
  exists w'. rewrite statusShell_prints.
  destruct (os_waitpid os (os_fork os)) as [n|s]; destruct Hst as [Hs Hg];
    rewrite Hs, Hg.
  - destruct n as [|[p|p|]|p]; eexists;
      (split; [exact Hrun|]; split; reflexivity).
  - eexists. split; [exact Hrun|]. split; reflexivity.
Qed.

(** [make] killed by signal 15, then [status]. *)
Lemma status_after_a_foreground_command_witness :
  0 < os_fork (child_ends (Signaled 15))
  /\ exists w' line,
       otherCommands (child_ends (Signaled 15)) (built "make" [] None None 0)
         (at_prompt two_jobs 0)
       = Next tt w'
       /\ statusShell w' = Next tt (logged w' [Printf line])
       /\ line = "terminated by signal 15" +:+ nl.
Proof.
  split; [reflexivity|].
  exact (status_after_a_foreground_command (child_ends (Signaled 15))
           "make" [] (at_prompt two_jobs 0) eq_refl).
Defined.

(** X22.  The empty line.  [shell] strips the newline with [strtok],
    which returns NULL when nothing else is on the line; [parseInput] copies
    its argument with [strcpy] before looking at it, so the shell faults
    right after the prompt, and no later line is read. *)
Theorem empty_line_stops_the_shell
    (os : os_model) (w : world) (more : list (os_model * string)) :
  tok (strtok nl nl) = None
  /\ parseInput os None w = Stopped (Faulted NullDeref) w
  /\ shell_iteration os nl w
     = Stopped (Faulted NullDeref) (logged w [Printf ": "])
  /\ shell_loop ((os, nl) :: more) w
     = Stopped (Faulted NullDeref) (logged w [Printf ": "]).
Proof. repeat split; reflexivity. Qed.

(** X23.  The prompt loop ends only on [exit]: [parseInput] hands back 0
    or 1, and 1 only for a line whose expansion parses into a command
    record with the program name [exit]. *)
Theorem only_exit_ends_the_loop
    (os : os_model) (input : option string) (w w' : world) (r : Z) :
  parseInput os input w = Next r w' ->
  r = 0
  \/ (r = 1
      /\ exists line inputPID c,
           input = Some line
           /\ expandPID (pidString (os_getpid os)) line = inr inputPID
           /\ build_command (foreground w) inputPID = inr c
           /\ command c = "exit").
Proof.
  unfold parseInput. destruct input as [line|]; [|discriminate].
  destruct (String.eqb (reads (strtok line " ")) nl).
  { unfold bind, printf, emit, ret. intros H. injection H as <- _. now left. }
  destruct (tok (strtok line " "));
    [|unfold ret; intros H; injection H as <- _; now left].
  destruct (first_char_eq (reads (strtok line " ")) "#");
    [unfold ret; intros H; injection H as <- _; now left|].
  destruct (expandPID (pidString (os_getpid os)) line) as [f|inputPID] eqn:He;
    [discriminate|].
  unfold bind at 1. unfold get_foreground.
  destruct (build_command (foreground w) inputPID) as [f|c] eqn:Hb;
    [discriminate|].
  unfold dispatch.
  destruct (String.eqb_spec (command c) "exit") as [Hexit|_].
  { unfold bind. destruct (exitShell w); [|discriminate..].
    unfold ret. intros H. injection H as <- _. right.
    split; [reflexivity|]. exists line, inputPID, c. auto. }
  destruct (String.eqb (command c) "cd").
  { unfold bind. destruct (cdShell os c w); [|discriminate..].
    unfold ret. intros H. injection H as <- _. now left. }
  destruct (String.eqb (command c) "status").
  { unfold bind. destruct (statusShell w); [|discriminate..].
    unfold ret. intros H. injection H as <- _. now left. }
  unfold bind. destruct (otherCommands os c w); [|discriminate..].
  unfold ret. intros H. injection H as <- _. now left.
Qed.

(** The line [exit] at a prompt with two jobs. *)
Lemma only_exit_ends_the_loop_witness :
  parseInput calm (Some "exit") (at_prompt two_jobs 0)
  = Next 1 (logged (at_prompt two_jobs 0) [Kill 41 SIGKILL; Kill 42 SIGKILL])
  /\ (1 = 0
      \/ (1 = 1
          /\ exists line inputPID c,
               Some "exit" = Some line
               /\ expandPID (pidString (os_getpid calm)) line = inr inputPID
               /\ build_command (foreground (at_prompt two_jobs 0)) inputPID
                  = inr c
               /\ command c = "exit")).
Proof.
  assert (H : parseInput calm (Some "exit") (at_prompt two_jobs 0)
              = Next 1 (logged (at_prompt two_jobs 0)
                          [Kill 41 SIGKILL; Kill 42 SIGKILL])).
  { vm_compute. reflexivity. }
  split; [exact H|].
  exact (only_exit_ends_the_loop calm (Some "exit") (at_prompt two_jobs 0) _ 1 H).
Defined.
